(** * Custom columns and workflow statuses: the synchronization engine

    A shallow embedding of [src/features/custom-columns/api/route.ts]: the
    POST, PATCH and DELETE handlers of the custom-column route, the document
    store they talk to, and the properties of the synchronization between
    project columns and workflow statuses.

    Conventions of the embedding.
    - JavaScript strings are [string]s over the ASCII repertoire; a
      character above 127 is carried through case mapping unchanged and is
      never white space.
    - Positions are integer attributes, embedded as [Z].
    - [undefined] and [null] are [None]; a JavaScript truthiness test of an
      optional string is [truthy].
    - The handlers run in a state-and-exception monad over the store; every
      store call is appended to a log and may be made to throw by a fault
      oracle, which stands for the network, the backend and concurrent
      requests. *)

From Stdlib Require Import List String Ascii ZArith NArith Bool Lia Arith.
From Stdlib Require Import DecimalString.
From Stdlib Require Import Sorting.Permutation Sorting.Sorted.
Import ListNotations.
Open Scope string_scope.
Open Scope Z_scope.
Open Scope list_scope.
Set Warnings "-register-all".

(* ================================================================== *)
(** ** Strings: case mapping and the key normalizer *)

Module Js.

(** [String.prototype.toLowerCase], on one ASCII character. *)
Definition lower_char (c : ascii) : ascii :=
  let n := N_of_ascii c in
  if ((65 <=? n) && (n <=? 90))%N then ascii_of_N (n + 32) else c.

(** [String.prototype.toUpperCase], on one ASCII character. *)
Definition upper_char (c : ascii) : ascii :=
  let n := N_of_ascii c in
  if ((97 <=? n) && (n <=? 122))%N then ascii_of_N (n - 32) else c.

Fixpoint map_string (f : ascii -> ascii) (s : string) : string :=
  match s with
  | EmptyString => EmptyString
  | String c r => String (f c) (map_string f r)
  end.

Definition toLowerCase : string -> string := map_string lower_char.
Definition toUpperCase : string -> string := map_string upper_char.

(** The character class [[\s_-]]: white space (tab, line feed, vertical
    tab, form feed, carriage return, space), underscore, hyphen. *)
Definition is_separator (c : ascii) : bool :=
  let n := N_of_ascii c in
  (((9 <=? n) && (n <=? 13)) || (n =? 32) || (n =? 95) || (n =? 45))%N.

(** [s.replace(/[\s_-]+/g, "_")]: scanning left to right, every maximal run
    of separators is replaced by one underscore.  [in_run] tells whether
    the previous character belonged to the run being replaced. *)
Fixpoint replace_runs (in_run : bool) (s : string) : string :=
  match s with
  | EmptyString => EmptyString
  | String c r =>
      if is_separator c
      then if in_run then replace_runs true r
           else String "_" (replace_runs true r)
      else String c (replace_runs false r)
  end.

Definition replace_separators (s : string) : string := replace_runs false s.

(** [name.toLowerCase().replace(/[\s_-]+/g, "_").toUpperCase()]
    (route.ts, lines 119 and 237). *)
Definition normalizedKey (name : string) : string :=
  toUpperCase (replace_separators (toLowerCase name)).

(** JavaScript truthiness of an optional string: [undefined], [null] and
    the empty string are falsy. *)
Definition truthy (o : option string) : bool :=
  match o with
  | Some s => negb (String.eqb s "")
  | None => false
  end.

(** [a || b] on an optional string with a string default. *)
Definition or_default (o : option string) (d : string) : string :=
  match o with
  | Some s => if String.eqb s "" then d else s
  | None => d
  end.

End Js.

(* ================================================================== *)
(** ** Documents and queries *)

(** The value of a document attribute. *)
Inductive Value :=
| VNull
| VStr (s : string)
| VNum (z : Z)
| VBool (b : bool).

Definition Value_eqb (a b : Value) : bool :=
  match a, b with
  | VNull, VNull => true
  | VStr x, VStr y => String.eqb x y
  | VNum x, VNum y => Z.eqb x y
  | VBool x, VBool y => Bool.eqb x y
  | _, _ => false
  end.

Definition opt_value (o : option string) : Value :=
  match o with Some s => VStr s | None => VNull end.

Definition num_of (v : Value) : Z :=
  match v with VNum z => z | _ => 0 end.

(** The queries of node-appwrite that the route builds. *)
Module Query.

Inductive t :=
| equal (attribute : string) (value : Value)
| or (queries : list t)
| orderAsc (attribute : string)
| orderDesc (attribute : string)
| limit (n : nat).

End Query.

(** What the store needs to know of a document: its [$id] and the value of
    each named attribute. *)
Class Document (D : Type) := {
  doc_id : D -> string;
  doc_attr : D -> string -> Value
}.

Record CustomColumn := {
  cc_id : string;
  cc_name : string;
  cc_workspaceId : string;
  cc_projectId : option string;
  cc_workflowId : option string;
  cc_icon : option string;
  cc_color : option string;
  cc_position : Z
}.

Record Project := {
  pr_id : string;
  pr_workflowId : option string
}.

Record WorkflowStatus := {
  ws_id : string;
  ws_workflowId : string;
  ws_name : string;
  ws_key : string;
  ws_icon : string;
  ws_color : string;
  ws_statusType : string;
  ws_description : option string;
  ws_position : Z;
  ws_positionX : Z;
  ws_positionY : Z;
  ws_isInitial : bool;
  ws_isFinal : bool
}.

Record WorkflowTransition := {
  wt_id : string;
  wt_workflowId : string;
  wt_fromStatusId : string;
  wt_toStatusId : string
}.

#[global] Instance CustomColumn_Document : Document CustomColumn := {
  doc_id := cc_id;
  doc_attr d a :=
    if String.eqb a "$id" then VStr (cc_id d)
    else if String.eqb a "name" then VStr (cc_name d)
    else if String.eqb a "workspaceId" then VStr (cc_workspaceId d)
    else if String.eqb a "projectId" then opt_value (cc_projectId d)
    else if String.eqb a "workflowId" then opt_value (cc_workflowId d)
    else if String.eqb a "icon" then opt_value (cc_icon d)
    else if String.eqb a "color" then opt_value (cc_color d)
    else if String.eqb a "position" then VNum (cc_position d)
    else VNull
}.

#[global] Instance Project_Document : Document Project := {
  doc_id := pr_id;
  doc_attr d a :=
    if String.eqb a "$id" then VStr (pr_id d)
    else if String.eqb a "workflowId" then opt_value (pr_workflowId d)
    else VNull
}.

#[global] Instance WorkflowStatus_Document : Document WorkflowStatus := {
  doc_id := ws_id;
  doc_attr d a :=
    if String.eqb a "$id" then VStr (ws_id d)
    else if String.eqb a "workflowId" then VStr (ws_workflowId d)
    else if String.eqb a "name" then VStr (ws_name d)
    else if String.eqb a "key" then VStr (ws_key d)
    else if String.eqb a "icon" then VStr (ws_icon d)
    else if String.eqb a "color" then VStr (ws_color d)
    else if String.eqb a "statusType" then VStr (ws_statusType d)
    else if String.eqb a "description" then opt_value (ws_description d)
    else if String.eqb a "position" then VNum (ws_position d)
    else if String.eqb a "positionX" then VNum (ws_positionX d)
    else if String.eqb a "positionY" then VNum (ws_positionY d)
    else if String.eqb a "isInitial" then VBool (ws_isInitial d)
    else if String.eqb a "isFinal" then VBool (ws_isFinal d)
    else VNull
}.

#[global] Instance WorkflowTransition_Document : Document WorkflowTransition := {
  doc_id := wt_id;
  doc_attr d a :=
    if String.eqb a "$id" then VStr (wt_id d)
    else if String.eqb a "workflowId" then VStr (wt_workflowId d)
    else if String.eqb a "fromStatusId" then VStr (wt_fromStatusId d)
    else if String.eqb a "toStatusId" then VStr (wt_toStatusId d)
    else VNull
}.

(** The answer of [listDocuments]. *)
Record DocumentList (D : Type) := {
  documents : list D;
  total : nat
}.
Arguments documents {D} _.
Arguments total {D} _.

Section Queries.
Context {D : Type} `{Document D}.

(** Does the document satisfy the query?  Ordering and limit queries do not
    filter. *)
Fixpoint matches (d : D) (q : Query.t) : bool :=
  match q with
  | Query.equal a v => Value_eqb (doc_attr d a) v
  | Query.or qs => existsb (matches d) qs
  | _ => true
  end.

Definition matches_all (qs : list Query.t) (d : D) : bool :=
  forallb (matches d) qs.

(** The ordering asked for, if any: attribute and direction ([true] is
    descending). *)
Fixpoint ordering (qs : list Query.t) : option (string * bool) :=
  match qs with
  | [] => None
  | Query.orderAsc a :: _ => Some (a, false)
  | Query.orderDesc a :: _ => Some (a, true)
  | _ :: r => ordering r
  end.

Fixpoint limit_of (qs : list Query.t) : option nat :=
  match qs with
  | [] => None
  | Query.limit n :: _ => Some n
  | _ :: r => limit_of r
  end.

(** Does [x] go before [y] in the ordering? *)
Definition goes_before (a : string) (desc : bool) (x y : D) : bool :=
  if desc then num_of (doc_attr y a) <=? num_of (doc_attr x a)
  else num_of (doc_attr x a) <=? num_of (doc_attr y a).

Fixpoint insert_ordered (a : string) (desc : bool) (x : D) (l : list D) : list D :=
  match l with
  | [] => [x]
  | y :: r => if goes_before a desc x y then x :: l
              else y :: insert_ordered a desc x r
  end.

Definition order_by (a : string) (desc : bool) (l : list D) : list D :=
  fold_right (insert_ordered a desc) [] l.

Definition apply_ordering (qs : list Query.t) (l : list D) : list D :=
  match ordering qs with
  | Some (a, desc) => order_by a desc l
  | None => l
  end.

Definition apply_limit (qs : list Query.t) (l : list D) : list D :=
  match limit_of qs with
  | Some n => firstn n l
  | None => l
  end.

(** The document store client (node-appwrite) is an external collaborator.
    Its [listDocuments] is taken as section 4.3 of the specification gives
    it: the ordered sequence of the documents that satisfy every filter,
    with equality, logical OR, ordering and limit, and no page size of its
    own.  [total] counts the matches before the limit is applied. *)
Definition run_queries (qs : list Query.t) (docs : list D) : DocumentList D :=
  let found := filter (matches_all qs) docs in
  {| documents := apply_limit qs (apply_ordering qs found);
     total := List.length found |}.

Definition has_id (id : string) (d : D) : bool := String.eqb (doc_id d) id.

Definition find_doc (id : string) (docs : list D) : option D :=
  find (has_id id) docs.

Definition remove_doc (id : string) (docs : list D) : list D :=
  filter (fun d => negb (has_id id d)) docs.

Definition replace_doc (id : string) (f : D -> D) (docs : list D) : list D :=
  map (fun d => if has_id id d then f d else d) docs.

End Queries.

(* ================================================================== *)
(** ** The store, its operations and the handler monad *)

(** The collection constants of [@/config]. *)
Inductive Collection :=
| CUSTOM_COLUMNS_ID
| PROJECTS_ID
| WORKFLOW_STATUSES_ID
| WORKFLOW_TRANSITIONS_ID.

Definition Collection_eqb (a b : Collection) : bool :=
  match a, b with
  | CUSTOM_COLUMNS_ID, CUSTOM_COLUMNS_ID => true
  | PROJECTS_ID, PROJECTS_ID => true
  | WORKFLOW_STATUSES_ID, WORKFLOW_STATUSES_ID => true
  | WORKFLOW_TRANSITIONS_ID, WORKFLOW_TRANSITIONS_ID => true
  | _, _ => false
  end.

(** What a store call can throw: the target is absent, or anything else
    (transport, permissions, a conflict). *)
Inductive Exception :=
| NotFound
| Unavailable.

(** One call on [databases]. *)
Inductive Op :=
| OpList (c : Collection) (queries : list Query.t)
| OpGet (c : Collection) (id : string)
| OpCreate (c : Collection) (id : string)
| OpUpdate (c : Collection) (id : string)
| OpDelete (c : Collection) (id : string).

Definition op_collection (o : Op) : Collection :=
  match o with
  | OpList c _ | OpGet c _ | OpCreate c _ | OpUpdate c _ | OpDelete c _ => c
  end.

Definition is_write (o : Op) : bool :=
  match o with
  | OpCreate _ _ | OpUpdate _ _ | OpDelete _ _ => true
  | _ => false
  end.

(** The database, the calls made so far (oldest first), what was written to
    the console, and the counter behind [ID.unique()]. *)
Record Store := {
  columns : list CustomColumn;
  projects : list Project;
  statuses : list WorkflowStatus;
  transitions : list WorkflowTransition;
  log : list Op;
  console : list string;
  fresh : nat
}.

Definition set_columns (l : list CustomColumn) (s : Store) : Store :=
  {| columns := l; projects := projects s; statuses := statuses s;
     transitions := transitions s; log := log s; console := console s;
     fresh := fresh s |}.

Definition set_projects (l : list Project) (s : Store) : Store :=
  {| columns := columns s; projects := l; statuses := statuses s;
     transitions := transitions s; log := log s; console := console s;
     fresh := fresh s |}.

Definition set_statuses (l : list WorkflowStatus) (s : Store) : Store :=
  {| columns := columns s; projects := projects s; statuses := l;
     transitions := transitions s; log := log s; console := console s;
     fresh := fresh s |}.

Definition set_transitions (l : list WorkflowTransition) (s : Store) : Store :=
  {| columns := columns s; projects := projects s; statuses := statuses s;
     transitions := l; log := log s; console := console s;
     fresh := fresh s |}.

Definition record_op (o : Op) (s : Store) : Store :=
  {| columns := columns s; projects := projects s; statuses := statuses s;
     transitions := transitions s; log := log s ++ [o]; console := console s;
     fresh := fresh s |}.

Definition record_console (m : string) (s : Store) : Store :=
  {| columns := columns s; projects := projects s; statuses := statuses s;
     transitions := transitions s; log := log s; console := console s ++ [m];
     fresh := fresh s |}.

Definition bump_fresh (s : Store) : Store :=
  {| columns := columns s; projects := projects s; statuses := statuses s;
     transitions := transitions s; log := log s; console := console s;
     fresh := S (fresh s) |}.

(** A typed view of one collection of the database. *)
Record Coll (D : Type) := {
  coll_id : Collection;
  coll_docs : Store -> list D;
  coll_put : list D -> Store -> Store
}.
Arguments coll_id {D} _.
Arguments coll_docs {D} _ _.
Arguments coll_put {D} _ _ _.

Definition Columns : Coll CustomColumn :=
  {| coll_id := CUSTOM_COLUMNS_ID; coll_docs := columns; coll_put := set_columns |}.
Definition Projects : Coll Project :=
  {| coll_id := PROJECTS_ID; coll_docs := projects; coll_put := set_projects |}.
Definition Statuses : Coll WorkflowStatus :=
  {| coll_id := WORKFLOW_STATUSES_ID; coll_docs := statuses; coll_put := set_statuses |}.
Definition Transitions : Coll WorkflowTransition :=
  {| coll_id := WORKFLOW_TRANSITIONS_ID; coll_docs := transitions;
     coll_put := set_transitions |}.

(** The outcome of an awaited computation. *)
Inductive Outcome (A : Type) :=
| Ok (a : A)
| Throw (e : Exception).
Arguments Ok {A} _.
Arguments Throw {A} _.

Definition M (A : Type) : Type := Store -> Outcome A * Store.

Definition ret {A} (a : A) : M A := fun s => (Ok a, s).

Definition bind {A B} (m : M A) (k : A -> M B) : M B :=
  fun s => match m s with
           | (Ok a, s') => k a s'
           | (Throw e, s') => (Throw e, s')
           end.

Definition throw {A} (e : Exception) : M A := fun s => (Throw e, s).

(** [try { m } catch (e) { h e }] *)
Definition try_catch {A} (m : M A) (h : Exception -> M A) : M A :=
  fun s => match m s with
           | (Ok a, s') => (Ok a, s')
           | (Throw e, s') => h e s'
           end.

Declare Scope handler_scope.
Delimit Scope handler_scope with handler.
Notation "x <- m ;; k" := (bind m (fun x => k))
  (at level 100, m at next level, right associativity) : handler_scope.
Notation "m ;;; k" := (bind m (fun _ => k))
  (at level 100, right associativity) : handler_scope.
Open Scope handler_scope.

(** [for (const x of l) { body x }] *)
Fixpoint for_of {D} (l : list D) (body : D -> M unit) : M unit :=
  match l with
  | [] => ret tt
  | x :: r => body x ;;; for_of r body
  end.

(** [console.error(msg, e)] *)
Definition console_error (msg : string) : M unit :=
  fun s => (Ok tt, record_console msg s).

(** [ID.unique()] *)
Definition ID_unique : M string :=
  fun s => (Ok (String.append "unique" (NilEmpty.string_of_uint (Nat.to_uint (fresh s)))),
            bump_fresh s).

(** The validated body of a create request ([createCustomColumnSchema] is
    not part of the route file; the fields are those the handler
    destructures, optional where the handler tests them). *)
Record CreateCustomColumn := {
  req_name : string;
  req_workspaceId : string;
  req_projectId : option string;
  req_workflowId : option string;
  req_icon : option string;
  req_color : option string;
  req_position : option Z
}.

(** Modelled from the spec: [updateCustomColumnSchema] is not part of the
    route file; sections 3 and 6 give a partial update of a column's display
    attributes and position, addressed by id. *)
Record UpdateCustomColumn := {
  upd_name : option string;
  upd_icon : option string;
  upd_color : option string;
  upd_position : option Z
}.

Definition apply_updates (u : UpdateCustomColumn) (d : CustomColumn) : CustomColumn :=
  {| cc_id := cc_id d;
     cc_name := match upd_name u with Some n => n | None => cc_name d end;
     cc_workspaceId := cc_workspaceId d;
     cc_projectId := cc_projectId d;
     cc_workflowId := cc_workflowId d;
     cc_icon := match upd_icon u with Some i => Some i | None => cc_icon d end;
     cc_color := match upd_color u with Some c => Some c | None => cc_color d end;
     cc_position := match upd_position u with Some p => p | None => cc_position d end |}.

(** The string behind an optional value that has been tested truthy. *)
Definition the (o : option string) : string :=
  match o with Some s => s | None => "" end.

Section Route.

(** The fault oracle: whether the [n]-th store call of the request, [op],
    throws, and what. *)
Variable oracle : nat -> Op -> option Exception.

(** Every store call is logged, then the oracle decides whether it throws
    before it takes effect. *)
Definition call (op : Op) : M unit :=
  fun s => match oracle (List.length (log s)) op with
           | Some e => (Throw e, record_op op s)
           | None => (Ok tt, record_op op s)
           end.

(** [databases.listDocuments(DATABASE_ID, collection, queries)] *)
Definition listDocuments {D} `{Document D} (C : Coll D) (queries : list Query.t)
  : M (DocumentList D) :=
  call (OpList (coll_id C) queries) ;;;
  fun s => (Ok (run_queries queries (coll_docs C s)), s).

(** [databases.getDocument(DATABASE_ID, collection, id)] *)
Definition getDocument {D} `{Document D} (C : Coll D) (id : string) : M D :=
  call (OpGet (coll_id C) id) ;;;
  fun s => match find_doc id (coll_docs C s) with
           | Some d => (Ok d, s)
           | None => (Throw NotFound, s)
           end.

(** [databases.createDocument(DATABASE_ID, collection, id, data)] *)
Definition createDocument {D} `{Document D} (C : Coll D) (id : string)
  (data : string -> D) : M D :=
  call (OpCreate (coll_id C) id) ;;;
  fun s => (Ok (data id), coll_put C (coll_docs C s ++ [data id]) s).

(** [databases.updateDocument(DATABASE_ID, collection, id, updates)] *)
Definition updateDocument {D} `{Document D} (C : Coll D) (id : string)
  (updates : D -> D) : M D :=
  call (OpUpdate (coll_id C) id) ;;;
  fun s => match find_doc id (coll_docs C s) with
           | Some d => (Ok (updates d),
                        coll_put C (replace_doc id updates (coll_docs C s)) s)
           | None => (Throw NotFound, s)
           end.

(** [databases.deleteDocument(DATABASE_ID, collection, id)] *)
Definition deleteDocument {D} `{Document D} (C : Coll D) (id : string) : M unit :=
  call (OpDelete (coll_id C) id) ;;;
  fun s => if existsb (has_id id) (coll_docs C s)
           then (Ok tt, coll_put C (remove_doc id (coll_docs C s)) s)
           else (Throw NotFound, s).

(* ------------------------------------------------------------------ *)
(** *** GET / (route.ts, lines 19-48) *)

Definition app_get (workspaceId : string) (projectId workflowId : option string)
  : M (DocumentList CustomColumn) :=
  let queries :=
    [Query.equal "workspaceId" (VStr workspaceId); Query.orderAsc "position"]
    ++ (if Js.truthy projectId
        then [Query.equal "projectId" (VStr (the projectId))] else [])
    ++ (if Js.truthy workflowId
        then [Query.equal "workflowId" (VStr (the workflowId))] else []) in
  listDocuments Columns queries.

(* ------------------------------------------------------------------ *)
(** *** POST / (route.ts, lines 49-177) *)

(** Lines 58-64. *)
Definition filterQueries (workspaceId : string) (projectId workflowId : option string)
  : list Query.t :=
  [Query.equal "workspaceId" (VStr workspaceId)]
  ++ (if Js.truthy projectId
      then [Query.equal "projectId" (VStr (the projectId))] else [])
  ++ (if Js.truthy workflowId
      then [Query.equal "workflowId" (VStr (the workflowId))] else []).

(** Lines 66-82. *)
Definition finalPosition (req : CreateCustomColumn) : M Z :=
  match req_position req with
  | Some position => ret position
  | None =>
      existingColumns <-
        listDocuments Columns
          (filterQueries (req_workspaceId req) (req_projectId req) (req_workflowId req)
           ++ [Query.orderDesc "position"; Query.limit 1]) ;;
      ret (match documents existingColumns with
           | d :: _ => cc_position d + 1000
           | [] => 1000
           end)
  end.

(** Lines 84-98. *)
Definition documentData (req : CreateCustomColumn) (position : Z) (id : string)
  : CustomColumn :=
  {| cc_id := id;
     cc_name := req_name req;
     cc_workspaceId := req_workspaceId req;
     cc_projectId := if Js.truthy (req_projectId req) then req_projectId req else None;
     cc_workflowId := if Js.truthy (req_workflowId req) then req_workflowId req else None;
     cc_icon := req_icon req;
     cc_color := req_color req;
     cc_position := position |}.

(** Lines 57-105: the column write itself. *)
Definition create_column (req : CreateCustomColumn) : M CustomColumn :=
  position <- finalPosition req ;;
  id <- ID_unique ;;
  createDocument Columns id (documentData req position).

(** Lines 152-165. *)
Definition statusData (workflowId name normalizedKey : string)
  (icon color : option string) (statusPosition : Z) (id : string) : WorkflowStatus :=
  {| ws_id := id;
     ws_workflowId := workflowId;
     ws_name := name;
     ws_key := normalizedKey;
     ws_icon := Js.or_default icon "Circle";
     ws_color := Js.or_default color "#6B7280";
     ws_statusType := "OPEN";
     ws_description := None;
     ws_position := statusPosition;
     ws_positionX := 100 + statusPosition * 180;
     ws_positionY := 100;
     ws_isInitial := false;
     ws_isFinal := false |}.

(** Lines 110-168: the body of the [try]. *)
Definition sync_status_body (req : CreateCustomColumn) : M unit :=
  let name := req_name req in
  project <- getDocument Projects (the (req_projectId req)) ;;
  if Js.truthy (pr_workflowId project) then
    let normalizedKey := Js.normalizedKey name in
    existingStatuses <-
      listDocuments Statuses
        [Query.equal "workflowId" (VStr (the (pr_workflowId project)));
         Query.or [Query.equal "name" (VStr name);
                   Query.equal "key" (VStr normalizedKey)]] ;;
    if Nat.eqb (total existingStatuses) 0 then
      workflowStatuses <-
        listDocuments Statuses
          [Query.equal "workflowId" (VStr (the (pr_workflowId project)));
           Query.orderDesc "position";
           Query.limit 1] ;;
      let statusPosition :=
        match documents workflowStatuses with
        | d :: _ => ws_position d + 1
        | [] => 0
        end in
      id <- ID_unique ;;
      createDocument Statuses id
        (statusData (the (pr_workflowId project)) name normalizedKey
           (req_icon req) (req_color req) statusPosition) ;;;
      ret tt
    else ret tt
  else ret tt.

(** Lines 107-173: the synchronization step of a create. *)
Definition sync_status (req : CreateCustomColumn) : M unit :=
  if Js.truthy (req_projectId req) && negb (Js.truthy (req_workflowId req)) then
    try_catch (sync_status_body req)
      (fun syncError =>
         console_error "Error syncing custom column to workflow status:")
  else ret tt.

Definition app_post (req : CreateCustomColumn) : M CustomColumn :=
  customColumn <- create_column req ;;
  sync_status req ;;;
  ret customColumn.

(* ------------------------------------------------------------------ *)
(** *** PATCH /:customColumnId (route.ts, lines 178-196) *)

Definition app_patch (customColumnId : string) (updates : UpdateCustomColumn)
  : M CustomColumn :=
  customColumn <- updateDocument Columns customColumnId (apply_updates updates) ;;
  ret customColumn.

(* ------------------------------------------------------------------ *)
(** *** DELETE /:customColumnId (route.ts, lines 197-296) *)

(** Lines 202-216: the name and project of the column, read before it is
    deleted; both stay [null] when the read throws. *)
Definition read_column (customColumnId : string)
  : M (option string * option string) :=
  try_catch
    (customColumn <- getDocument Columns customColumnId ;;
     ret (Some (cc_name customColumn), cc_projectId customColumn))
    (fun _ => ret (None, None)).

(** Lines 265-275. *)
Definition delete_transition (transition : WorkflowTransition) : M unit :=
  try_catch (deleteDocument Transitions (wt_id transition)) (fun _ => ret tt).

(** Lines 277-286. *)
Definition delete_status (status : WorkflowStatus) : M unit :=
  try_catch (deleteDocument Statuses (ws_id status)) (fun _ => ret tt).

(** Lines 251-287: the body of the loop over the matching statuses. *)
Definition cascade_status (workflowId : string) (status : WorkflowStatus) : M unit :=
  relatedTransitions <-
    listDocuments Transitions
      [Query.equal "workflowId" (VStr workflowId);
       Query.or [Query.equal "fromStatusId" (VStr (ws_id status));
                 Query.equal "toStatusId" (VStr (ws_id status))]] ;;
  for_of (documents relatedTransitions) delete_transition ;;;
  delete_status status.

(** Lines 228-288: the body of the [try]. *)
Definition cleanup_body (columnName columnProjectId : string) : M unit :=
  project <- getDocument Projects columnProjectId ;;
  if Js.truthy (pr_workflowId project) then
    let normalizedKey := Js.normalizedKey columnName in
    matchingStatuses <-
      listDocuments Statuses
        [Query.equal "workflowId" (VStr (the (pr_workflowId project)));
         Query.or [Query.equal "name" (VStr columnName);
                   Query.equal "key" (VStr normalizedKey)]] ;;
    for_of (documents matchingStatuses)
      (cascade_status (the (pr_workflowId project)))
  else ret tt.

(** Lines 225-293: the synchronization step of a delete. *)
Definition cleanup_status (columnName columnProjectId : option string) : M unit :=
  if Js.truthy columnName && Js.truthy columnProjectId then
    try_catch (cleanup_body (the columnName) (the columnProjectId))
      (fun syncError =>
         console_error "Error cleaning up workflow status after column delete:")
  else ret tt.

(** Lines 202-223: the pre-read and the removal of the column itself. *)
Definition remove_column (customColumnId : string)
  : M (option string * option string) :=
  pre <- read_column customColumnId ;;
  deleteDocument Columns customColumnId ;;;
  ret pre.

Definition app_delete (customColumnId : string) : M string :=
  pre <- remove_column customColumnId ;;
  cleanup_status (fst pre) (snd pre) ;;;
  ret customColumnId.

End Route.

(** The oracle of a run in which no store call is made to fail. *)
Definition no_fault : nat -> Op -> option Exception := fun _ _ => None.

(** A computation keeps a component [f] of the store when every run leaves
    it as it was, whatever the outcome. *)
Definition keeps {X A} (f : Store -> X) (m : M A) : Prop :=
  forall s, f (snd (m s)) = f s.

(** A computation never throws when every run ends in [Ok]. *)
Definition never_throws {A} (m : M A) : Prop :=
  forall s, exists a, fst (m s) = Ok a.

(* ================================================================== *)
(** ** The vocabulary of the specification *)

(** A status of workflow [workflowId] is the same concept as a column
    called [name] when their names are equal or the status key is the
    normalized key of the name. *)
Definition matching_status (workflowId name : string) (st : WorkflowStatus) : bool :=
  String.eqb (ws_workflowId st) workflowId
  && (String.eqb (ws_name st) name
      || String.eqb (ws_key st) (Js.normalizedKey name)).

(** A transition has the status [statusId] as an endpoint. *)
Definition incident (statusId : string) (t : WorkflowTransition) : bool :=
  String.eqb (wt_fromStatusId t) statusId || String.eqb (wt_toStatusId t) statusId.

(** A transition of workflow [workflowId] with [statusId] as an endpoint. *)
Definition related_transition (workflowId statusId : string)
  (t : WorkflowTransition) : bool :=
  String.eqb (wt_workflowId t) workflowId && incident statusId t.

(** The scope of a create request: the workspace, narrowed by the project
    and by the workflow when the request supplies them. *)
Definition in_scope (req : CreateCustomColumn) (c : CustomColumn) : bool :=
  String.eqb (cc_workspaceId c) (req_workspaceId req)
  && (if Js.truthy (req_projectId req)
      then Value_eqb (opt_value (cc_projectId c)) (VStr (the (req_projectId req)))
      else true)
  && (if Js.truthy (req_workflowId req)
      then Value_eqb (opt_value (cc_workflowId c)) (VStr (the (req_workflowId req)))
      else true).

(** The greatest element of a list of positions, if there is one. *)
Definition max_of (l : list Z) : option Z :=
  match l with
  | [] => None
  | x :: r => Some (fold_left Z.max r x)
  end.

(** The first document of a list dominates the list on attribute [a]. *)
Definition head_is_max {D} `{Document D} (a : string) (l : list D) : Prop :=
  match l with
  | [] => True
  | d :: _ => forall x, In x l -> num_of (doc_attr x a) <= num_of (doc_attr d a)
  end.

(** *** The deletion cascade when no call fails

    The store after each step of lines 251-287, as a function of the store
    before it; [cascade_status_reliable] and the lemmas around it show that
    the handler computes exactly this when the oracle lets every call
    through. *)

Definition transition_queries (workflowId statusId : string) : list Query.t :=
  [Query.equal "workflowId" (VStr workflowId);
   Query.or [Query.equal "fromStatusId" (VStr statusId);
             Query.equal "toStatusId" (VStr statusId)]].

Definition status_queries (workflowId name : string) : list Query.t :=
  [Query.equal "workflowId" (VStr workflowId);
   Query.or [Query.equal "name" (VStr name);
             Query.equal "key" (VStr (Js.normalizedKey name))]].

Definition after_delete_transition (s : Store) (t : WorkflowTransition) : Store :=
  set_transitions (remove_doc (wt_id t) (transitions s))
    (record_op (OpDelete WORKFLOW_TRANSITIONS_ID (wt_id t)) s).

Definition after_delete_status (s : Store) (st : WorkflowStatus) : Store :=
  set_statuses (remove_doc (ws_id st) (statuses s))
    (record_op (OpDelete WORKFLOW_STATUSES_ID (ws_id st)) s).

Definition after_cascade_status (workflowId : string) (s : Store)
  (st : WorkflowStatus) : Store :=
  after_delete_status
    (fold_left after_delete_transition
       (filter (related_transition workflowId (ws_id st)) (transitions s))
       (record_op (OpList WORKFLOW_TRANSITIONS_ID
                     (transition_queries workflowId (ws_id st))) s))
    st.

Definition after_cascade (workflowId : string) (l : list WorkflowStatus)
  (s : Store) : Store :=
  fold_left (after_cascade_status workflowId) l s.

(** The documents left when those with one of the ids are removed. *)
Definition remove_ids {D} `{Document D} (ids : list string) (docs : list D) : list D :=
  fold_left (fun l id => remove_doc id l) ids docs.

(** The transitions left by the cascade over the statuses [l]. *)
Fixpoint cascade_transitions (workflowId : string) (l : list WorkflowStatus)
  (T : list WorkflowTransition) : list WorkflowTransition :=
  match l with
  | [] => T
  | st :: r =>
      cascade_transitions workflowId r
        (remove_ids (map wt_id (filter (related_transition workflowId (ws_id st)) T)) T)
  end.

(** The store calls of the cascade over the statuses [l]. *)
Fixpoint cascade_ops (workflowId : string) (l : list WorkflowStatus)
  (T : list WorkflowTransition) : list Op :=
  match l with
  | [] => []
  | st :: r =>
      let related := filter (related_transition workflowId (ws_id st)) T in
      OpList WORKFLOW_TRANSITIONS_ID (transition_queries workflowId (ws_id st))
      :: map (fun t => OpDelete WORKFLOW_TRANSITIONS_ID (wt_id t)) related
      ++ OpDelete WORKFLOW_STATUSES_ID (ws_id st)
      :: cascade_ops workflowId r (remove_ids (map wt_id related) T)
  end.

(** The oracle lets every call on collection [c] through. *)
Definition reliable_on (oracle : nat -> Op -> option Exception) (c : Collection)
  : Prop :=
  forall n op, op_collection op = c -> oracle n op = None.

(** The calls of lines 267-271 and 279-283: the deletion of one transition
    or of one status inside the cascade. *)
Definition cascade_delete (op : Op) : bool :=
  match op with
  | OpDelete WORKFLOW_TRANSITIONS_ID _ | OpDelete WORKFLOW_STATUSES_ID _ => true
  | _ => false
  end.

(** The oracle makes no call fail except, possibly, deletions inside the
    cascade. *)
Definition faults_only_in_cascade_deletes (oracle : nat -> Op -> option Exception)
  : Prop :=
  forall n op, cascade_delete op = false -> oracle n op = None.

(** The oracle lets every call through. *)
Definition reliable (oracle : nat -> Op -> option Exception) : Prop :=
  forall n op, oracle n op = None.

Arguments run_queries : simpl never.
Arguments matches_all : simpl never.
Arguments find_doc : simpl never.
Arguments remove_doc : simpl never.
Arguments replace_doc : simpl never.
Arguments Js.normalizedKey : simpl never.

(* ================================================================== *)
(** ** A board to run the handlers on *)

Module Board.

Definition project : Project :=
  {| pr_id := "p1"; pr_workflowId := Some "w1" |}.

Definition todo : WorkflowStatus :=
  {| ws_id := "st_todo"; ws_workflowId := "w1"; ws_name := "To Do";
     ws_key := "TO_DO"; ws_icon := "Circle"; ws_color := "#6B7280";
     ws_statusType := "OPEN"; ws_description := None; ws_position := 0;
     ws_positionX := 100; ws_positionY := 100;
     ws_isInitial := true; ws_isFinal := false |}.

Definition done : WorkflowStatus :=
  {| ws_id := "st_done"; ws_workflowId := "w1"; ws_name := "Done";
     ws_key := "DONE"; ws_icon := "Check"; ws_color := "#10B981";
     ws_statusType := "CLOSED"; ws_description := None; ws_position := 1;
     ws_positionX := 280; ws_positionY := 100;
     ws_isInitial := false; ws_isFinal := true |}.

Definition finish : WorkflowTransition :=
  {| wt_id := "t_finish"; wt_workflowId := "w1";
     wt_fromStatusId := "st_todo"; wt_toStatusId := "st_done" |}.

Definition reopen : WorkflowTransition :=
  {| wt_id := "t_reopen"; wt_workflowId := "w1";
     wt_fromStatusId := "st_done"; wt_toStatusId := "st_todo" |}.

Definition refine : WorkflowTransition :=
  {| wt_id := "t_refine"; wt_workflowId := "w1";
     wt_fromStatusId := "st_todo"; wt_toStatusId := "st_todo" |}.

Definition done_column : CustomColumn :=
  {| cc_id := "c_done"; cc_name := "done"; cc_workspaceId := "ws1";
     cc_projectId := Some "p1"; cc_workflowId := None;
     cc_icon := None; cc_color := None; cc_position := 1000 |}.

Definition blocked_column : CustomColumn :=
  {| cc_id := "c_blocked"; cc_name := "Blocked"; cc_workspaceId := "ws1";
     cc_projectId := Some "p1"; cc_workflowId := None;
     cc_icon := Some "Ban"; cc_color := None; cc_position := 2500 |}.

Definition elsewhere_column : CustomColumn :=
  {| cc_id := "c_else"; cc_name := "Ideas"; cc_workspaceId := "ws1";
     cc_projectId := Some "p2"; cc_workflowId := None;
     cc_icon := None; cc_color := None; cc_position := 9000 |}.

Definition store : Store :=
  {| columns := [done_column; blocked_column; elsewhere_column];
     projects := [project];
     statuses := [todo; done];
     transitions := [finish; reopen; refine];
     log := [];
     console := [];
     fresh := 0 |}.

(** A project column "In Review", without a position. *)
Definition in_review : CreateCustomColumn :=
  {| req_name := "In Review"; req_workspaceId := "ws1";
     req_projectId := Some "p1"; req_workflowId := None;
     req_icon := None; req_color := Some "#F59E0B"; req_position := None |}.

(** The same name in another casing and with another separator. *)
Definition in_review_again : CreateCustomColumn :=
  {| req_name := "in_review"; req_workspaceId := "ws1";
     req_projectId := Some "p1"; req_workflowId := None;
     req_icon := None; req_color := None; req_position := None |}.

(** A column that carries both a project and a workflow. *)
Definition both_links : CreateCustomColumn :=
  {| req_name := "Done"; req_workspaceId := "ws1";
     req_projectId := Some "p1"; req_workflowId := Some "w1";
     req_icon := None; req_color := None; req_position := Some 42 |}.

(** The column that [both_links] stores on [store]. *)
Definition both_links_column : CustomColumn :=
  {| cc_id := "unique0"; cc_name := "Done"; cc_workspaceId := "ws1";
     cc_projectId := Some "p1"; cc_workflowId := Some "w1";
     cc_icon := None; cc_color := None; cc_position := 42 |}.

(** The store after [in_review] has been created on [store]. *)
Definition store_with_in_review (oracle : nat -> Op -> option Exception) : Store :=
  snd (app_post oracle in_review store).

(** The status that creating [in_review] adds to [store]. *)
Definition in_review_status : WorkflowStatus :=
  {| ws_id := "unique1"; ws_workflowId := "w1"; ws_name := "In Review";
     ws_key := "IN_REVIEW"; ws_icon := "Circle"; ws_color := "#F59E0B";
     ws_statusType := "OPEN"; ws_description := None; ws_position := 2;
     ws_positionX := 460; ws_positionY := 100;
     ws_isInitial := false; ws_isFinal := false |}.

(** Every deletion of a transition answers not-found, as when another
    request removed the transitions in between. *)
Definition transitions_vanish : nat -> Op -> option Exception :=
  fun _ op =>
    match op with
    | OpDelete WORKFLOW_TRANSITIONS_ID _ => Some NotFound
    | _ => None
    end.

(** The project collection cannot be reached. *)
Definition projects_down : nat -> Op -> option Exception :=
  fun _ op =>
    match op with
    | OpGet PROJECTS_ID _ => Some Unavailable
    | _ => None
    end.

End Board.

(* ================================================================== *)
(** ** Further vocabulary: keys, listings, calls *)

(** An ASCII lower-case letter. *)
Definition is_lower (c : ascii) : bool :=
  let n := N_of_ascii c in ((97 <=? n) && (n <=? 122))%N.

(** The shape of a key: no lower-case letter, no separator other than the
    underscore, and no underscore next to another.  [after_underscore] tells
    whether the previous character was an underscore. *)
Fixpoint key_shape (after_underscore : bool) (s : string) : bool :=
  match s with
  | EmptyString => true
  | String c r =>
      negb (is_lower c)
      && (if Js.is_separator c
          then (N_of_ascii c =? 95)%N && negb after_underscore && key_shape true r
          else key_shape false r)
  end.

(** A string made of separators only. *)
Fixpoint all_separators (s : string) : bool :=
  match s with
  | EmptyString => true
  | String c r => Js.is_separator c && all_separators r
  end.

(** Whether a scan of [s] by [Js.replace_runs] ends inside a run. *)
Fixpoint run_state (in_run : bool) (s : string) : bool :=
  match s with
  | EmptyString => in_run
  | String c r => run_state (Js.is_separator c) r
  end.

(** The columns that GET / selects: the workspace, narrowed by the project
    and by the workflow when the query supplies them. *)
Definition listed (workspaceId : string) (projectId workflowId : option string)
  (c : CustomColumn) : bool :=
  String.eqb (cc_workspaceId c) workspaceId
  && (if Js.truthy projectId
      then Value_eqb (opt_value (cc_projectId c)) (VStr (the projectId))
      else true)
  && (if Js.truthy workflowId
      then Value_eqb (opt_value (cc_workflowId c)) (VStr (the workflowId))
      else true).

(** Ascending by position. *)
Definition position_le (a b : CustomColumn) : Prop := cc_position a <= cc_position b.

(** A request whose falsy links (absent or empty) are written as absent. *)
Definition without_falsy_links (req : CreateCustomColumn) : CreateCustomColumn :=
  {| req_name := req_name req;
     req_workspaceId := req_workspaceId req;
     req_projectId := if Js.truthy (req_projectId req) then req_projectId req else None;
     req_workflowId := if Js.truthy (req_workflowId req) then req_workflowId req else None;
     req_icon := req_icon req;
     req_color := req_color req;
     req_position := req_position req |}.

(** The position a create stores: the one of the request, or else 1000
    above the greatest position in the scope of the request. *)
Definition stored_position (req : CreateCustomColumn) (cols : list CustomColumn) : Z :=
  match req_position req with
  | Some position => position
  | None =>
      match max_of (map cc_position (filter (in_scope req) cols)) with
      | Some m => m + 1000
      | None => 1000
      end
  end.

(** The id that [ID.unique()] hands out when the counter stands at [n]. *)
Definition unique_id (n : nat) : string :=
  String.append "unique" (NilEmpty.string_of_uint (Nat.to_uint n)).

(** From [s] to [s'] statuses and transitions are only removed, and those
    that satisfy the keep predicates are still there. *)
Definition shrinks_within (keep_status : WorkflowStatus -> Prop)
  (keep_transition : WorkflowTransition -> Prop) (s s' : Store) : Prop :=
  (forall st, In st (statuses s') -> In st (statuses s)) /\
  (forall st, In st (statuses s) -> keep_status st -> In st (statuses s')) /\
  (forall t, In t (transitions s') -> In t (transitions s)) /\
  (forall t, In t (transitions s) -> keep_transition t -> In t (transitions s')).

(** A status that shares its id with no status matching the column. *)
Definition spared_status (workflowId name : string) (S : list WorkflowStatus)
  (st : WorkflowStatus) : Prop :=
  forall m, In m S -> matching_status workflowId name m = true -> ws_id m <> ws_id st.

(** A transition that shares its id with no transition of the workflow
    touching a status that matches the column. *)
Definition spared_transition (workflowId name : string) (S : list WorkflowStatus)
  (T : list WorkflowTransition) (t : WorkflowTransition) : Prop :=
  forall m t', In m S -> matching_status workflowId name m = true ->
    In t' T -> related_transition workflowId (ws_id m) t' = true ->
    wt_id t' <> wt_id t.

(** Every run of the computation appends to the log calls that satisfy [P],
    and nothing else. *)
Definition issues {A} (P : Op -> Prop) (m : M A) : Prop :=
  forall s, exists ops, log (snd (m s)) = log s ++ ops /\ Forall P ops.

(** The calls a create may issue: listing and creating columns, reading the
    project, listing and creating statuses. *)
Definition create_call (op : Op) : bool :=
  match op with
  | OpList CUSTOM_COLUMNS_ID _ | OpCreate CUSTOM_COLUMNS_ID _
  | OpGet PROJECTS_ID _
  | OpList WORKFLOW_STATUSES_ID _ | OpCreate WORKFLOW_STATUSES_ID _ => true
  | _ => false
  end.

(** The calls a delete may issue: reading and deleting the column, reading
    the project, listing and deleting statuses and transitions. *)
Definition delete_call (op : Op) : bool :=
  match op with
  | OpGet CUSTOM_COLUMNS_ID _ | OpDelete CUSTOM_COLUMNS_ID _
  | OpGet PROJECTS_ID _
  | OpList WORKFLOW_STATUSES_ID _ | OpDelete WORKFLOW_STATUSES_ID _
  | OpList WORKFLOW_TRANSITIONS_ID _ | OpDelete WORKFLOW_TRANSITIONS_ID _ => true
  | _ => false
  end.

(** A call on the column collection. *)
Definition column_call (op : Op) : bool :=
  Collection_eqb (op_collection op) CUSTOM_COLUMNS_ID.

(** The oracle fails every listing of transitions and nothing else. *)
Definition transition_listing_down : nat -> Op -> option Exception :=
  fun _ op =>
    match op with
    | OpList WORKFLOW_TRANSITIONS_ID _ => Some Unavailable
    | _ => None
    end.

(** The oracle fails the creation of a column and nothing else. *)
Definition column_create_down : nat -> Op -> option Exception :=
  fun _ op =>
    match op with
    | OpCreate CUSTOM_COLUMNS_ID _ => Some Unavailable
    | _ => None
    end.

(** The oracle fails the read of a column and nothing else. *)
Definition column_read_down : nat -> Op -> option Exception :=
  fun _ op =>
    match op with
    | OpGet CUSTOM_COLUMNS_ID _ => Some Unavailable
    | _ => None
    end.

(* ================================================================== *)
(** * Properties *)

(** ** The key normalizer *)

Module NormalizerFacts.
Import Js.

Lemma lower_upper_char (c : ascii) : lower_char (upper_char c) = lower_char c.
Proof. destruct c as [[] [] [] [] [] [] [] []]; reflexivity. Qed.

Lemma lower_lower_char (c : ascii) : lower_char (lower_char c) = lower_char c.
Proof. destruct c as [[] [] [] [] [] [] [] []]; reflexivity. Qed.

Lemma separator_lower_char (c : ascii) :
  is_separator (lower_char c) = is_separator c.
Proof. destruct c as [[] [] [] [] [] [] [] []]; reflexivity. Qed.

Lemma map_string_compose (f g h : ascii -> ascii) (s : string) :
  (forall c, f (g c) = h c) ->
  map_string f (map_string g s) = map_string h s.
Proof.
  intros E. induction s as [|c r IH]; simpl; [reflexivity|].
  now rewrite E, IH.
Qed.

(** Replacing the runs commutes with a character map that keeps the
    separator class and the underscore. *)
Lemma replace_runs_map (f : ascii -> ascii) :
  (forall c, is_separator (f c) = is_separator c) ->
  f "_"%char = "_"%char ->
  forall s b, replace_runs b (map_string f s) = map_string f (replace_runs b s).
Proof.
  intros Hsep Hu. induction s as [|c r IH]; intros b; simpl; [reflexivity|].
  rewrite Hsep. destruct (is_separator c) eqn:E.
  - destruct b; simpl; rewrite IH; [reflexivity|]. now rewrite Hu.
  - simpl. now rewrite IH.
Qed.

Lemma replace_runs_twice (s : string) :
  replace_runs false (replace_runs false s) = replace_runs false s /\
  replace_runs true (replace_runs true s) = replace_runs true s.
Proof.
  induction s as [|c r [IHf IHt]]; simpl; [split; reflexivity|].
  destruct (is_separator c) eqn:E; simpl.
  - split; [now rewrite IHt | exact IHt].
  - rewrite E, IHf. split; reflexivity.
Qed.

Lemma replace_separators_twice (s : string) :
  replace_separators (replace_separators s) = replace_separators s.
Proof. apply replace_runs_twice. Qed.

Lemma replace_lower_commute (s : string) :
  replace_separators (toLowerCase s) = toLowerCase (replace_separators s).
Proof.
  apply (replace_runs_map lower_char separator_lower_char eq_refl).
Qed.

End NormalizerFacts.


Example normalizedKey_in_review :
  Js.normalizedKey "In Review" = "IN_REVIEW".
Proof. reflexivity. Qed.

Example normalizedKey_variants :
  Js.normalizedKey "in_review" = "IN_REVIEW" /\
  Js.normalizedKey "in - _ review" = "IN_REVIEW" /\
  Js.normalizedKey " done " = "_DONE_".
Proof. repeat split; reflexivity. Qed.

(* ================================================================== *)
(** ** Reasoning about handlers *)

Lemma bind_ok {A B} (m : M A) (k : A -> M B) s a s' :
  m s = (Ok a, s') -> bind m k s = k a s'.
Proof. unfold bind. now intros ->. Qed.

Lemma bind_throw {A B} (m : M A) (k : A -> M B) s e s' :
  m s = (Throw e, s') -> bind m k s = (Throw e, s').
Proof. unfold bind. now intros ->. Qed.

Section Combinators.
Context {X : Type} (f : Store -> X).

Lemma keeps_ret {A} (a : A) : keeps f (ret a).
Proof. intros s. reflexivity. Qed.

Lemma keeps_bind {A B} (m : M A) (k : A -> M B) :
  keeps f m -> (forall a, keeps f (k a)) -> keeps f (bind m k).
Proof.
  intros Hm Hk s. unfold bind. specialize (Hm s).
  destruct (m s) as [[a|e] s1]; simpl in *; [|exact Hm].
  now rewrite Hk.
Qed.

Lemma keeps_try_catch {A} (m : M A) (h : Exception -> M A) :
  keeps f m -> (forall e, keeps f (h e)) -> keeps f (try_catch m h).
Proof.
  intros Hm Hh s. unfold try_catch. specialize (Hm s).
  destruct (m s) as [[a|e] s1]; simpl in *; [exact Hm|].
  now rewrite Hh.
Qed.

Lemma keeps_for_of {D} (l : list D) (body : D -> M unit) :
  (forall x, In x l -> keeps f (body x)) -> keeps f (for_of l body).
Proof.
  induction l as [|x r IH]; intros Hb; simpl.
  - apply keeps_ret.
  - apply keeps_bind; [apply Hb; now left|].
    intros _. apply IH. intros y Hy. apply Hb. now right.
Qed.

End Combinators.

Lemma never_throws_ret {A} (a : A) : never_throws (ret a).
Proof. intros s. now exists a. Qed.

Lemma never_throws_bind {A B} (m : M A) (k : A -> M B) :
  never_throws m -> (forall a, never_throws (k a)) -> never_throws (bind m k).
Proof.
  intros Hm Hk s. unfold bind. destruct (Hm s) as [a Ha].
  destruct (m s) as [[a'|e] s1]; simpl in Ha; [|discriminate].
  apply Hk.
Qed.

Lemma never_throws_try_catch {A} (m : M A) (h : Exception -> M A) :
  (forall e, never_throws (h e)) -> never_throws (try_catch m h).
Proof.
  intros Hh s. unfold try_catch.
  destruct (m s) as [[a|e] s1]; [now exists a|apply Hh].
Qed.

Lemma never_throws_for_of {D} (l : list D) (body : D -> M unit) :
  (forall x, never_throws (body x)) -> never_throws (for_of l body).
Proof.
  intros Hb. induction l as [|x r IH]; simpl.
  - apply never_throws_ret.
  - apply never_throws_bind; [apply Hb|]. intros _. exact IH.
Qed.

Lemma never_throws_console_error msg : never_throws (console_error msg).
Proof. intros s. now exists tt. Qed.

(** What a store call on one collection leaves alone. *)
Ltac primitive :=
  let s := fresh "s" in
  intros s;
  unfold listDocuments, getDocument, createDocument, updateDocument,
    deleteDocument, console_error, ID_unique, bind, call; simpl;
  repeat match goal with
         | |- context [match ?o ?n ?op with Some _ => _ | None => _ end] =>
             destruct (o n op); simpl
         | |- context [match find_doc ?i ?l with _ => _ end] =>
             destruct (find_doc i l); simpl
         | |- context [if existsb ?p ?l then _ else _] =>
             destruct (existsb p l); simpl
         end;
  reflexivity.

Section Primitives.
Variable oracle : nat -> Op -> option Exception.

Lemma keeps_console_error {X} (f : Store -> X) msg :
  (forall s, f (record_console msg s) = f s) -> keeps f (console_error msg).
Proof. intros E s. apply E. Qed.

Lemma listDocuments_keeps_columns {D} `{Document D} (C : Coll D) qs :
  keeps columns (listDocuments oracle C qs).
Proof. primitive. Qed.
Lemma listDocuments_keeps_projects {D} `{Document D} (C : Coll D) qs :
  keeps projects (listDocuments oracle C qs).
Proof. primitive. Qed.
Lemma listDocuments_keeps_statuses {D} `{Document D} (C : Coll D) qs :
  keeps statuses (listDocuments oracle C qs).
Proof. primitive. Qed.
Lemma listDocuments_keeps_transitions {D} `{Document D} (C : Coll D) qs :
  keeps transitions (listDocuments oracle C qs).
Proof. primitive. Qed.

Lemma getDocument_keeps_columns {D} `{Document D} (C : Coll D) id :
  keeps columns (getDocument oracle C id).
Proof. primitive. Qed.
Lemma getDocument_keeps_projects {D} `{Document D} (C : Coll D) id :
  keeps projects (getDocument oracle C id).
Proof. primitive. Qed.
Lemma getDocument_keeps_statuses {D} `{Document D} (C : Coll D) id :
  keeps statuses (getDocument oracle C id).
Proof. primitive. Qed.
Lemma getDocument_keeps_transitions {D} `{Document D} (C : Coll D) id :
  keeps transitions (getDocument oracle C id).
Proof. primitive. Qed.

Lemma ID_unique_keeps_columns : keeps columns ID_unique.
Proof. primitive. Qed.
Lemma ID_unique_keeps_projects : keeps projects ID_unique.
Proof. primitive. Qed.
Lemma ID_unique_keeps_statuses : keeps statuses ID_unique.
Proof. primitive. Qed.
Lemma ID_unique_keeps_transitions : keeps transitions ID_unique.
Proof. primitive. Qed.

Lemma create_column_keeps_projects id data :
  keeps projects (createDocument oracle Columns id data).
Proof. primitive. Qed.
Lemma create_column_keeps_statuses id data :
  keeps statuses (createDocument oracle Columns id data).
Proof. primitive. Qed.
Lemma create_column_keeps_transitions id data :
  keeps transitions (createDocument oracle Columns id data).
Proof. primitive. Qed.

Lemma create_status_keeps_columns id data :
  keeps columns (createDocument oracle Statuses id data).
Proof. primitive. Qed.
Lemma create_status_keeps_projects id data :
  keeps projects (createDocument oracle Statuses id data).
Proof. primitive. Qed.
Lemma create_status_keeps_transitions id data :
  keeps transitions (createDocument oracle Statuses id data).
Proof. primitive. Qed.

Lemma update_column_keeps_projects id u :
  keeps projects (updateDocument oracle Columns id u).
Proof. primitive. Qed.
Lemma update_column_keeps_statuses id u :
  keeps statuses (updateDocument oracle Columns id u).
Proof. primitive. Qed.
Lemma update_column_keeps_transitions id u :
  keeps transitions (updateDocument oracle Columns id u).
Proof. primitive. Qed.

Lemma delete_column_keeps_projects id :
  keeps projects (deleteDocument oracle Columns id).
Proof. primitive. Qed.
Lemma delete_column_keeps_statuses id :
  keeps statuses (deleteDocument oracle Columns id).
Proof. primitive. Qed.
Lemma delete_column_keeps_transitions id :
  keeps transitions (deleteDocument oracle Columns id).
Proof. primitive. Qed.

Lemma delete_status_keeps_columns id :
  keeps columns (deleteDocument oracle Statuses id).
Proof. primitive. Qed.
Lemma delete_status_keeps_projects id :
  keeps projects (deleteDocument oracle Statuses id).
Proof. primitive. Qed.
Lemma delete_status_keeps_transitions id :
  keeps transitions (deleteDocument oracle Statuses id).
Proof. primitive. Qed.

Lemma delete_transition_keeps_columns id :
  keeps columns (deleteDocument oracle Transitions id).
Proof. primitive. Qed.
Lemma delete_transition_keeps_projects id :
  keeps projects (deleteDocument oracle Transitions id).
Proof. primitive. Qed.
Lemma delete_transition_keeps_statuses id :
  keeps statuses (deleteDocument oracle Transitions id).
Proof. primitive. Qed.

End Primitives.

Create HintDb frame.
#[export] Hint Resolve
  listDocuments_keeps_columns listDocuments_keeps_projects
  listDocuments_keeps_statuses listDocuments_keeps_transitions
  getDocument_keeps_columns getDocument_keeps_projects
  getDocument_keeps_statuses getDocument_keeps_transitions
  ID_unique_keeps_columns ID_unique_keeps_projects
  ID_unique_keeps_statuses ID_unique_keeps_transitions
  create_column_keeps_projects create_column_keeps_statuses
  create_column_keeps_transitions
  create_status_keeps_columns create_status_keeps_projects
  create_status_keeps_transitions
  update_column_keeps_projects update_column_keeps_statuses
  update_column_keeps_transitions
  delete_column_keeps_projects delete_column_keeps_statuses
  delete_column_keeps_transitions
  delete_status_keeps_columns delete_status_keeps_projects
  delete_status_keeps_transitions
  delete_transition_keeps_columns delete_transition_keeps_projects
  delete_transition_keeps_statuses : frame.

(** Decompose a handler along its control flow and close the leaves with
    the facts about the store calls. *)
Ltac frame :=
  repeat first
    [ solve [auto with frame]
    | apply keeps_ret
    | apply keeps_console_error; intros ?; reflexivity
    | apply keeps_try_catch; [|intros ?]
    | apply keeps_for_of; intros ? ?
    | apply keeps_bind; [|intros ?]
    | match goal with
      | |- keeps _ (if ?b then _ else _) => destruct b
      | |- keeps _ (match ?x with _ => _ end) => destruct x
      end ].

(* ================================================================== *)
(** ** Frames of the handlers *)

Section HandlerFrames.
Variable oracle : nat -> Op -> option Exception.

Lemma column_write_keeps_projects req : keeps projects (create_column oracle req).
Proof. unfold create_column, finalPosition. frame. Qed.

Lemma column_write_keeps_statuses req : keeps statuses (create_column oracle req).
Proof. unfold create_column, finalPosition. frame. Qed.

Lemma column_write_keeps_transitions req :
  keeps transitions (create_column oracle req).
Proof. unfold create_column, finalPosition. frame. Qed.

Lemma sync_status_keeps_columns req : keeps columns (sync_status oracle req).
Proof. unfold sync_status, sync_status_body. frame. Qed.

Lemma sync_status_keeps_projects req : keeps projects (sync_status oracle req).
Proof. unfold sync_status, sync_status_body. frame. Qed.

Lemma sync_status_keeps_transitions req :
  keeps transitions (sync_status oracle req).
Proof. unfold sync_status, sync_status_body. frame. Qed.

Lemma cleanup_status_keeps_columns n p : keeps columns (cleanup_status oracle n p).
Proof.
  unfold cleanup_status, cleanup_body, cascade_status, delete_transition,
    delete_status.
  frame.
Qed.

Lemma cleanup_status_keeps_projects n p : keeps projects (cleanup_status oracle n p).
Proof.
  unfold cleanup_status, cleanup_body, cascade_status, delete_transition,
    delete_status.
  frame.
Qed.

Lemma remove_column_keeps_statuses id : keeps statuses (remove_column oracle id).
Proof. unfold remove_column, read_column. frame. Qed.

Lemma remove_column_keeps_transitions id :
  keeps transitions (remove_column oracle id).
Proof. unfold remove_column, read_column. frame. Qed.

Lemma remove_column_keeps_projects id : keeps projects (remove_column oracle id).
Proof. unfold remove_column, read_column. frame. Qed.

Lemma sync_status_never_throws req : never_throws (sync_status oracle req).
Proof.
  unfold sync_status.
  destruct (Js.truthy (req_projectId req) && negb (Js.truthy (req_workflowId req))).
  - apply never_throws_try_catch. intros _. apply never_throws_console_error.
  - apply never_throws_ret.
Qed.

Lemma cleanup_status_never_throws n p : never_throws (cleanup_status oracle n p).
Proof.
  unfold cleanup_status.
  destruct (Js.truthy n && Js.truthy p).
  - apply never_throws_try_catch. intros _. apply never_throws_console_error.
  - apply never_throws_ret.
Qed.

Lemma delete_transition_never_throws t : never_throws (delete_transition oracle t).
Proof.
  apply never_throws_try_catch. intros _. apply never_throws_ret.
Qed.

Lemma delete_status_never_throws st : never_throws (delete_status oracle st).
Proof.
  apply never_throws_try_catch. intros _. apply never_throws_ret.
Qed.

End HandlerFrames.

Lemma never_throws_tt (m : M unit) s : never_throws m -> fst (m s) = Ok tt.
Proof. intros H. destruct (H s) as [[] E]. exact E. Qed.

(** ** Errors of the synchronization step *)

(** C3. Whatever the store does during the synchronization step, that step
    ends without throwing; the outcome of a create is the outcome of the
    column write alone (the created column when it succeeded), the outcome
    of a delete is the acknowledgment of the id when the column removal
    succeeded, and the column collection is as the column write left it. *)
Theorem sync_errors_suppressed (oracle : nat -> Op -> option Exception)
  (req : CreateCustomColumn) (customColumnId : string) (s : Store) :
  (forall s1, fst (sync_status oracle req s1) = Ok tt) /\
  (forall columnName columnProjectId s1,
     fst (cleanup_status oracle columnName columnProjectId s1) = Ok tt) /\
  fst (app_post oracle req s) = fst (create_column oracle req s) /\
  columns (snd (app_post oracle req s)) = columns (snd (create_column oracle req s)) /\
  fst (app_delete oracle customColumnId s) =
    match fst (remove_column oracle customColumnId s) with
    | Ok _ => Ok customColumnId
    | Throw e => Throw e
    end /\
  columns (snd (app_delete oracle customColumnId s)) =
    columns (snd (remove_column oracle customColumnId s)).
Proof.
  split; [|split].
  - intros s1. apply never_throws_tt, sync_status_never_throws.
  - intros n p s1. apply never_throws_tt, cleanup_status_never_throws.
  - unfold app_post, app_delete, bind.
    destruct (create_column oracle req s) as [[col|e] s1];
      destruct (remove_column oracle customColumnId s) as [[pre|e'] s2]; simpl;
      try (pose proof (never_throws_tt _ s1 (sync_status_never_throws oracle req)) as E1;
           pose proof (sync_status_keeps_columns oracle req s1) as K1;
           destruct (sync_status oracle req s1) as [[[]|?] s1']; simpl in *;
           try discriminate);
      try (pose proof (never_throws_tt _ s2
             (cleanup_status_never_throws oracle (fst pre) (snd pre))) as E2;
           pose proof (cleanup_status_keeps_columns oracle (fst pre) (snd pre) s2) as K2;
           destruct (cleanup_status oracle (fst pre) (snd pre) s2) as [[[]|?] s2'];
           simpl in *; try discriminate);
      repeat split; auto.
Qed.

(** ** PATCH *)

(** C10. A partial update issues exactly one store call, the update of the
    column document: projects, statuses and transitions are neither read
    nor written, so a status that matched the column keeps its old name when
    the column is renamed; within the column collection only the documents
    with the given id change. *)
Theorem patch_writes_only_the_column (oracle : nat -> Op -> option Exception)
  (customColumnId : string) (updates : UpdateCustomColumn) (s : Store) :
  let s' := snd (app_patch oracle customColumnId updates s) in
  log s' = log s ++ [OpUpdate CUSTOM_COLUMNS_ID customColumnId] /\
  projects s' = projects s /\
  statuses s' = statuses s /\
  transitions s' = transitions s /\
  (columns s' = columns s \/
   columns s' = replace_doc customColumnId (apply_updates updates) (columns s)).
Proof.
  unfold app_patch, updateDocument, bind, call. simpl.
  destruct (oracle (List.length (log s)) (OpUpdate CUSTOM_COLUMNS_ID customColumnId));
    simpl; [repeat split; auto|].
  destruct (find_doc customColumnId (columns s)); simpl; repeat split; auto.
Qed.

(* ================================================================== *)
(** ** How the store calls run *)

Section Runs.
Variable oracle : nat -> Op -> option Exception.

Lemma get_project_run id s :
  getDocument oracle Projects id s =
  match oracle (List.length (log s)) (OpGet PROJECTS_ID id) with
  | Some e => (Throw e, record_op (OpGet PROJECTS_ID id) s)
  | None =>
      match find_doc id (projects s) with
      | Some d => (Ok d, record_op (OpGet PROJECTS_ID id) s)
      | None => (Throw NotFound, record_op (OpGet PROJECTS_ID id) s)
      end
  end.
Proof.
  unfold getDocument, bind, call. simpl.
  destruct (oracle _ _); reflexivity.
Qed.

Lemma get_column_run id s :
  getDocument oracle Columns id s =
  match oracle (List.length (log s)) (OpGet CUSTOM_COLUMNS_ID id) with
  | Some e => (Throw e, record_op (OpGet CUSTOM_COLUMNS_ID id) s)
  | None =>
      match find_doc id (columns s) with
      | Some d => (Ok d, record_op (OpGet CUSTOM_COLUMNS_ID id) s)
      | None => (Throw NotFound, record_op (OpGet CUSTOM_COLUMNS_ID id) s)
      end
  end.
Proof.
  unfold getDocument, bind, call. simpl.
  destruct (oracle _ _); reflexivity.
Qed.

Lemma list_columns_run qs s :
  listDocuments oracle Columns qs s =
  match oracle (List.length (log s)) (OpList CUSTOM_COLUMNS_ID qs) with
  | Some e => (Throw e, record_op (OpList CUSTOM_COLUMNS_ID qs) s)
  | None => (Ok (run_queries qs (columns s)),
             record_op (OpList CUSTOM_COLUMNS_ID qs) s)
  end.
Proof.
  unfold listDocuments, bind, call. simpl.
  destruct (oracle _ _); reflexivity.
Qed.

Lemma list_statuses_run qs s :
  listDocuments oracle Statuses qs s =
  match oracle (List.length (log s)) (OpList WORKFLOW_STATUSES_ID qs) with
  | Some e => (Throw e, record_op (OpList WORKFLOW_STATUSES_ID qs) s)
  | None => (Ok (run_queries qs (statuses s)),
             record_op (OpList WORKFLOW_STATUSES_ID qs) s)
  end.
Proof.
  unfold listDocuments, bind, call. simpl.
  destruct (oracle _ _); reflexivity.
Qed.

Lemma list_transitions_run qs s :
  listDocuments oracle Transitions qs s =
  match oracle (List.length (log s)) (OpList WORKFLOW_TRANSITIONS_ID qs) with
  | Some e => (Throw e, record_op (OpList WORKFLOW_TRANSITIONS_ID qs) s)
  | None => (Ok (run_queries qs (transitions s)),
             record_op (OpList WORKFLOW_TRANSITIONS_ID qs) s)
  end.
Proof.
  unfold listDocuments, bind, call. simpl.
  destruct (oracle _ _); reflexivity.
Qed.

Lemma create_column_doc_run id data s :
  createDocument oracle Columns id data s =
  match oracle (List.length (log s)) (OpCreate CUSTOM_COLUMNS_ID id) with
  | Some e => (Throw e, record_op (OpCreate CUSTOM_COLUMNS_ID id) s)
  | None => (Ok (data id),
             set_columns (columns s ++ [data id])
               (record_op (OpCreate CUSTOM_COLUMNS_ID id) s))
  end.
Proof.
  unfold createDocument, bind, call. simpl.
  destruct (oracle _ _); reflexivity.
Qed.

Lemma create_status_doc_run id data s :
  createDocument oracle Statuses id data s =
  match oracle (List.length (log s)) (OpCreate WORKFLOW_STATUSES_ID id) with
  | Some e => (Throw e, record_op (OpCreate WORKFLOW_STATUSES_ID id) s)
  | None => (Ok (data id),
             set_statuses (statuses s ++ [data id])
               (record_op (OpCreate WORKFLOW_STATUSES_ID id) s))
  end.
Proof.
  unfold createDocument, bind, call. simpl.
  destruct (oracle _ _); reflexivity.
Qed.

Lemma delete_column_run id s :
  deleteDocument oracle Columns id s =
  match oracle (List.length (log s)) (OpDelete CUSTOM_COLUMNS_ID id) with
  | Some e => (Throw e, record_op (OpDelete CUSTOM_COLUMNS_ID id) s)
  | None =>
      if existsb (has_id id) (columns s)
      then (Ok tt, set_columns (remove_doc id (columns s))
                     (record_op (OpDelete CUSTOM_COLUMNS_ID id) s))
      else (Throw NotFound, record_op (OpDelete CUSTOM_COLUMNS_ID id) s)
  end.
Proof.
  unfold deleteDocument, bind, call. simpl.
  destruct (oracle _ _); reflexivity.
Qed.

Lemma delete_status_run id s :
  deleteDocument oracle Statuses id s =
  match oracle (List.length (log s)) (OpDelete WORKFLOW_STATUSES_ID id) with
  | Some e => (Throw e, record_op (OpDelete WORKFLOW_STATUSES_ID id) s)
  | None =>
      if existsb (has_id id) (statuses s)
      then (Ok tt, set_statuses (remove_doc id (statuses s))
                     (record_op (OpDelete WORKFLOW_STATUSES_ID id) s))
      else (Throw NotFound, record_op (OpDelete WORKFLOW_STATUSES_ID id) s)
  end.
Proof.
  unfold deleteDocument, bind, call. simpl.
  destruct (oracle _ _); reflexivity.
Qed.

Lemma delete_transition_run id s :
  deleteDocument oracle Transitions id s =
  match oracle (List.length (log s)) (OpDelete WORKFLOW_TRANSITIONS_ID id) with
  | Some e => (Throw e, record_op (OpDelete WORKFLOW_TRANSITIONS_ID id) s)
  | None =>
      if existsb (has_id id) (transitions s)
      then (Ok tt, set_transitions (remove_doc id (transitions s))
                     (record_op (OpDelete WORKFLOW_TRANSITIONS_ID id) s))
      else (Throw NotFound, record_op (OpDelete WORKFLOW_TRANSITIONS_ID id) s)
  end.
Proof.
  unfold deleteDocument, bind, call. simpl.
  destruct (oracle _ _); reflexivity.
Qed.

End Runs.

(** ** What the queries of the route select *)

Lemma status_query_matches workflowId name (st : WorkflowStatus) :
  matches_all
    [Query.equal "workflowId" (VStr workflowId);
     Query.or [Query.equal "name" (VStr name);
               Query.equal "key" (VStr (Js.normalizedKey name))]] st
  = matching_status workflowId name st.
Proof.
  unfold matches_all, matching_status. simpl.
  now rewrite andb_true_r, orb_false_r.
Qed.

Lemma transition_query_matches workflowId statusId (t : WorkflowTransition) :
  matches_all
    [Query.equal "workflowId" (VStr workflowId);
     Query.or [Query.equal "fromStatusId" (VStr statusId);
               Query.equal "toStatusId" (VStr statusId)]] t
  = related_transition workflowId statusId t.
Proof.
  unfold matches_all, related_transition, incident. simpl.
  now rewrite andb_true_r, orb_false_r.
Qed.

Lemma workflow_query_matches workflowId (st : WorkflowStatus) :
  matches_all
    [Query.equal "workflowId" (VStr workflowId);
     Query.orderDesc "position"; Query.limit 1] st
  = String.eqb (ws_workflowId st) workflowId.
Proof.
  unfold matches_all. simpl. now rewrite andb_true_r.
Qed.

Lemma scope_query_matches req (c : CustomColumn) :
  matches_all
    (filterQueries (req_workspaceId req) (req_projectId req) (req_workflowId req)
     ++ [Query.orderDesc "position"; Query.limit 1]) c
  = in_scope req c.
Proof.
  unfold matches_all, filterQueries, in_scope.
  destruct (Js.truthy (req_projectId req)), (Js.truthy (req_workflowId req));
    simpl; rewrite ?andb_true_r, ?andb_assoc; reflexivity.
Qed.


(** ** Creation: an existing status blocks the synchronization *)

Lemma filter_nonempty {A} (f : A -> bool) (l : list A) (x : A) :
  In x l -> f x = true -> List.length (filter f l) <> 0%nat.
Proof.
  intros Hin Hf E. apply length_zero_iff_nil in E.
  assert (In x (filter f l)) as Hx by (apply filter_In; auto).
  rewrite E in Hx. destruct Hx.
Qed.

Lemma filter_none {A} (f : A -> bool) (l : list A) :
  (forall x, In x l -> f x = false) -> filter f l = [].
Proof.
  induction l as [|x r IH]; intros Hf; simpl; [reflexivity|].
  rewrite (Hf x) by now left. apply IH. intros y Hy. apply Hf. now right.
Qed.

Lemma status_total workflowId name (l : list WorkflowStatus) :
  total (run_queries
           [Query.equal "workflowId" (VStr workflowId);
            Query.or [Query.equal "name" (VStr name);
                      Query.equal "key" (VStr (Js.normalizedKey name))]] l)
  = List.length (filter (matching_status workflowId name) l).
Proof.
  unfold run_queries. simpl. f_equal. apply filter_ext.
  intros st. apply status_query_matches.
Qed.

Lemma sync_status_with_existing oracle req s project status :
  find_doc (the (req_projectId req)) (projects s) = Some project ->
  In status (statuses s) ->
  matching_status (the (pr_workflowId project)) (req_name req) status = true ->
  statuses (snd (sync_status oracle req s)) = statuses s.
Proof.
  intros Hfind Hin Hm.
  unfold sync_status.
  destruct (Js.truthy (req_projectId req) && negb (Js.truthy (req_workflowId req)));
    [|reflexivity].
  unfold try_catch, sync_status_body, bind.
  rewrite get_project_run.
  destruct (oracle _ _); [reflexivity|].
  rewrite Hfind.
  destruct (Js.truthy (pr_workflowId project)); [|reflexivity].
  rewrite list_statuses_run.
  destruct (oracle _ _); [reflexivity|].
  rewrite status_total.
  change (statuses (record_op (OpGet PROJECTS_ID (the (req_projectId req))) s))
    with (statuses s).
  destruct (Nat.eqb_spec
              (List.length
                 (filter (matching_status (the (pr_workflowId project)) (req_name req))
                    (statuses s))) 0) as [E|_].
  - exfalso. revert E. eapply filter_nonempty; eauto.
  - reflexivity.
Qed.


(** ** Ordering: the first document of a descending order is a maximum *)

Section Ordering.
Context {D : Type} `{Document D}.
Variable a : string.

Lemma insert_ordered_In x y l :
  In y (insert_ordered a true x l) <-> y = x \/ In y l.
Proof.
  induction l as [|z r IH]; simpl.
  - intuition.
  - unfold goes_before.
    destruct (num_of (doc_attr z a) <=? num_of (doc_attr x a)); simpl;
      [intuition|].
    rewrite IH. intuition.
Qed.

Lemma order_by_In y l : In y (order_by a true l) <-> In y l.
Proof.
  induction l as [|x r IH]; simpl; [tauto|].
  unfold order_by in *. simpl. rewrite insert_ordered_In, IH. intuition.
Qed.

Lemma insert_ordered_head x l :
  head_is_max a l -> head_is_max a (insert_ordered a true x l).
Proof.
  destruct l as [|y r]; simpl.
  - intros _ z [<-|[]]. lia.
  - intros Hy. unfold goes_before.
    destruct (Z.leb_spec (num_of (doc_attr y a)) (num_of (doc_attr x a))); simpl.
    + intros z [<-|Hz]; [lia|]. specialize (Hy z Hz). lia.
    + intros z [<-|Hz]; [lia|]. apply insert_ordered_In in Hz.
      destruct Hz as [->|Hz]; [lia|]. apply Hy. now right.
Qed.

Lemma order_by_head l : head_is_max a (order_by a true l).
Proof.
  induction l as [|x r IH]; simpl; [exact I|].
  apply insert_ordered_head, IH.
Qed.

Lemma order_by_nil l : order_by a true l = [] -> l = [].
Proof.
  destruct l as [|x r]; [reflexivity|]. intros E.
  assert (In x (order_by a true (x :: r))) as Hx by (apply order_by_In; now left).
  rewrite E in Hx. destruct Hx.
Qed.

End Ordering.

Lemma fold_left_max_spec (r : list Z) (x : Z) :
  let v := fold_left Z.max r x in
  (v = x \/ In v r) /\ x <= v /\ forall y, In y r -> y <= v.
Proof.
  revert x. induction r as [|z r IH]; intros x; simpl.
  - repeat split; [now left|lia|tauto].
  - destruct (IH (Z.max x z)) as (Hv & Hx & Hr).
    repeat split.
    + destruct Hv as [Hv|Hv]; [|now right; right].
      rewrite Hv. destruct (Z.max_spec x z) as [[_ ->]|[_ ->]]; auto.
    + lia.
    + intros y [<-|Hy]; [lia|]. now apply Hr.
Qed.

(** [max_of] returns the element that dominates the list. *)
Lemma max_of_dominant (l : list Z) (m : Z) :
  In m l -> (forall x, In x l -> x <= m) -> max_of l = Some m.
Proof.
  destruct l as [|x r]; [intros Hm; inversion Hm|]. intros Hm Hle. simpl. f_equal.
  destruct (fold_left_max_spec r x) as (Hv & Hx & Hr). simpl in *.
  set (v := fold_left Z.max r x) in *.
  assert (v <= m) by (apply Hle; destruct Hv as [->|Hv]; auto).
  assert (m <= v) by (destruct Hm as [<-|Hm]; auto).
  lia.
Qed.

(** The position read by "descending by position, one result" is the
    greatest position among the documents selected. *)
Lemma top_position {D} `{Document D} (pos : D -> Z) (sel : D -> bool)
  (qs : list Query.t) (docs : list D) :
  (forall d, num_of (doc_attr d "position") = pos d) ->
  (forall d, matches_all qs d = sel d) ->
  ordering qs = Some ("position", true) ->
  limit_of qs = Some 1%nat ->
  match documents (run_queries qs docs) with
  | d :: _ => max_of (map pos (filter sel docs)) = Some (pos d)
  | [] => max_of (map pos (filter sel docs)) = None
  end.
Proof.
  intros Hpos Hsel Hord Hlim.
  unfold run_queries, apply_limit, apply_ordering. simpl.
  rewrite Hord, Hlim.
  rewrite (filter_ext _ _ Hsel).
  set (found := filter sel docs).
  pose proof (order_by_head "position" found) as Hhead.
  pose proof (order_by_nil "position" found) as Hnil.
  pose proof (fun y => proj1 (order_by_In "position" y found)) as Hin.
  pose proof (fun y => proj2 (order_by_In "position" y found)) as Hin'.
  destruct (order_by "position" true found) as [|d r]; simpl.
  - now rewrite Hnil.
  - apply max_of_dominant.
    + apply in_map. apply Hin. now left.
    + intros x Hx. apply in_map_iff in Hx. destruct Hx as (y & <- & Hy).
      rewrite <- !Hpos. apply Hhead. apply Hin'. exact Hy.
Qed.

(** ** Creation: the default position *)

Lemma scope_ordering req :
  ordering
    (filterQueries (req_workspaceId req) (req_projectId req) (req_workflowId req)
     ++ [Query.orderDesc "position"; Query.limit 1]) = Some ("position", true) /\
  limit_of
    (filterQueries (req_workspaceId req) (req_projectId req) (req_workflowId req)
     ++ [Query.orderDesc "position"; Query.limit 1]) = Some 1%nat.
Proof.
  unfold filterQueries.
  destruct (Js.truthy (req_projectId req)), (Js.truthy (req_workflowId req));
    split; reflexivity.
Qed.

(** The position that lines 66-82 compute from the store. *)
Lemma next_column_position req (cols : list CustomColumn) :
  match
    documents
      (run_queries
         (filterQueries (req_workspaceId req) (req_projectId req)
            (req_workflowId req)
          ++ [Query.orderDesc "position"; Query.limit 1]) cols)
  with
  | d :: _ => cc_position d + 1000
  | [] => 1000
  end
  = match max_of (map cc_position (filter (in_scope req) cols)) with
    | Some m => m + 1000
    | None => 1000
    end.
Proof.
  destruct (scope_ordering req) as [Ho Hl].
  pose proof (top_position cc_position (in_scope req) _ cols
                (fun d => eq_refl) (scope_query_matches req) Ho Hl) as T.
  destruct (documents _) as [|d r]; now rewrite T.
Qed.


(** ** Creation: the new status *)

Lemma create_column_succeeds oracle req s :
  reliable_on oracle CUSTOM_COLUMNS_ID ->
  exists column s1, create_column oracle req s = (Ok column, s1).
Proof.
  intros Hrel. unfold create_column, finalPosition, bind.
  destruct (req_position req) as [p|].
  - unfold ret, ID_unique. rewrite create_column_doc_run, Hrel by reflexivity.
    eauto.
  - rewrite list_columns_run, Hrel by reflexivity.
    unfold ret, ID_unique. rewrite create_column_doc_run, Hrel by reflexivity.
    eauto.
Qed.

(** The position that lines 134-145 compute from the store. *)
Lemma next_status_position workflowId (sts : list WorkflowStatus) :
  match
    documents
      (run_queries
         [Query.equal "workflowId" (VStr workflowId);
          Query.orderDesc "position"; Query.limit 1] sts)
  with
  | d :: _ => ws_position d + 1
  | [] => 0
  end
  = match max_of (map ws_position
                    (filter (fun st => String.eqb (ws_workflowId st) workflowId) sts))
    with
    | Some m => m + 1
    | None => 0
    end.
Proof.
  pose proof (top_position ws_position
                (fun st => String.eqb (ws_workflowId st) workflowId) _ sts
                (fun d => eq_refl) (workflow_query_matches workflowId)
                eq_refl eq_refl) as T.
  destruct (documents _) as [|d r]; now rewrite T.
Qed.

Lemma sync_status_creates oracle req s project :
  reliable oracle ->
  Js.truthy (req_projectId req) = true ->
  Js.truthy (req_workflowId req) = false ->
  find_doc (the (req_projectId req)) (projects s) = Some project ->
  Js.truthy (pr_workflowId project) = true ->
  (forall st, In st (statuses s) ->
     matching_status (the (pr_workflowId project)) (req_name req) st = false) ->
  exists id s',
    sync_status oracle req s = (Ok tt, s') /\
    statuses s' = statuses s ++
      [statusData (the (pr_workflowId project)) (req_name req)
         (Js.normalizedKey (req_name req)) (req_icon req) (req_color req)
         (match max_of (map ws_position
                          (filter (fun st => String.eqb (ws_workflowId st)
                                               (the (pr_workflowId project)))
                             (statuses s)))
          with
          | Some m => m + 1
          | None => 0
          end) id].
Proof.
  intros Hrel Hp Hw Hfind Hpw Hnone.
  unfold sync_status. rewrite Hp, Hw. simpl.
  unfold try_catch, sync_status_body, bind.
  rewrite get_project_run, Hrel, Hfind, Hpw.
  rewrite list_statuses_run, Hrel, status_total.
  change (statuses (record_op (OpGet PROJECTS_ID (the (req_projectId req))) s))
    with (statuses s).
  rewrite (filter_none _ _ Hnone). simpl.
  rewrite list_statuses_run, Hrel, next_status_position.
  unfold ID_unique. rewrite create_status_doc_run, Hrel.
  eexists _, _. split; reflexivity.
Qed.


(** ** Deletion: the cascade when no call fails *)

Lemma remove_doc_absent {D} `{Document D} id (docs : list D) :
  existsb (has_id id) docs = false -> remove_doc id docs = docs.
Proof.
  unfold remove_doc. induction docs as [|d r IH]; simpl; [reflexivity|].
  intros E. apply orb_false_iff in E. destruct E as [E1 E2].
  rewrite E1. simpl. now rewrite IH.
Qed.

Lemma remove_doc_In {D} `{Document D} id (docs : list D) x :
  In x (remove_doc id docs) <-> In x docs /\ doc_id x <> id.
Proof.
  unfold remove_doc. rewrite filter_In. unfold has_id.
  destruct (String.eqb_spec (doc_id x) id); simpl; intuition congruence.
Qed.

Lemma remove_ids_In {D} `{Document D} ids (docs : list D) x :
  In x (remove_ids ids docs) <-> In x docs /\ ~ In (doc_id x) ids.
Proof.
  unfold remove_ids. revert docs.
  induction ids as [|id r IH]; intros docs; simpl; [tauto|].
  rewrite IH, remove_doc_In. intuition.
Qed.

Lemma related_documents workflowId statusId (T : list WorkflowTransition) :
  documents (run_queries (transition_queries workflowId statusId) T)
  = filter (related_transition workflowId statusId) T.
Proof.
  unfold run_queries, apply_limit, apply_ordering. simpl.
  apply filter_ext. intros t. apply transition_query_matches.
Qed.

Lemma matching_documents workflowId name (S : list WorkflowStatus) :
  documents (run_queries (status_queries workflowId name) S)
  = filter (matching_status workflowId name) S.
Proof.
  unfold run_queries, apply_limit, apply_ordering. simpl.
  apply filter_ext. intros t. apply status_query_matches.
Qed.

Section ReliableCascade.
Variable oracle : nat -> Op -> option Exception.
Hypothesis Hrel : reliable oracle.

Lemma delete_transition_reliable t s :
  delete_transition oracle t s = (Ok tt, after_delete_transition s t).
Proof.
  unfold delete_transition, try_catch, after_delete_transition.
  rewrite delete_transition_run, Hrel.
  destruct (existsb (has_id (wt_id t)) (transitions s)) eqn:E; [reflexivity|].
  rewrite (remove_doc_absent _ _ E). destruct s; reflexivity.
Qed.

Lemma delete_status_reliable st s :
  delete_status oracle st s = (Ok tt, after_delete_status s st).
Proof.
  unfold delete_status, try_catch, after_delete_status.
  rewrite delete_status_run, Hrel.
  destruct (existsb (has_id (ws_id st)) (statuses s)) eqn:E; [reflexivity|].
  rewrite (remove_doc_absent _ _ E). destruct s; reflexivity.
Qed.

Lemma for_of_reliable {D} (body : D -> M unit) (after : Store -> D -> Store) l :
  (forall x s, body x s = (Ok tt, after s x)) ->
  forall s, for_of l body s = (Ok tt, fold_left after l s).
Proof.
  intros Hb. induction l as [|x r IH]; intros s; simpl; [reflexivity|].
  rewrite (bind_ok _ _ _ _ _ (Hb x s)). apply IH.
Qed.

Lemma cascade_status_reliable workflowId st s :
  cascade_status oracle workflowId st s = (Ok tt, after_cascade_status workflowId s st).
Proof.
  unfold cascade_status, after_cascade_status, bind.
  rewrite list_transitions_run, Hrel.
  fold (transition_queries workflowId (ws_id st)).
  rewrite related_documents.
  rewrite (for_of_reliable _ _ _ delete_transition_reliable).
  apply delete_status_reliable.
Qed.

(** The whole request, when the column is there and its project is linked
    to a workflow. *)
Lemma app_delete_reliable customColumnId s column project :
  find_doc customColumnId (columns s) = Some column ->
  Js.truthy (Some (cc_name column)) = true ->
  Js.truthy (cc_projectId column) = true ->
  find_doc (the (cc_projectId column)) (projects s) = Some project ->
  Js.truthy (pr_workflowId project) = true ->
  app_delete oracle customColumnId s =
  (Ok customColumnId,
   after_cascade (the (pr_workflowId project))
     (filter (matching_status (the (pr_workflowId project)) (cc_name column))
        (statuses s))
     (record_op (OpList WORKFLOW_STATUSES_ID
                   (status_queries (the (pr_workflowId project)) (cc_name column)))
        (record_op (OpGet PROJECTS_ID (the (cc_projectId column)))
           (set_columns (remove_doc customColumnId (columns s))
              (record_op (OpDelete CUSTOM_COLUMNS_ID customColumnId)
                 (record_op (OpGet CUSTOM_COLUMNS_ID customColumnId) s)))))).
Proof.
  intros Hcol Hname Hpid Hproj Hwf.
  assert (existsb (has_id customColumnId) (columns s) = true) as Hex.
  { apply existsb_exists. unfold find_doc in Hcol.
    apply find_some in Hcol. exists column. exact Hcol. }
  unfold app_delete, remove_column, read_column, try_catch, bind.
  rewrite get_column_run, Hrel, Hcol. unfold ret. cbv beta iota.
  rewrite delete_column_run, Hrel.
  change (columns (record_op (OpGet CUSTOM_COLUMNS_ID customColumnId) s))
    with (columns s).
  rewrite Hex. cbv beta iota. simpl fst. simpl snd.
  unfold cleanup_status. rewrite Hname, Hpid.
  change (true && true) with true.
  change (the (Some (cc_name column))) with (cc_name column).
  unfold try_catch, cleanup_body, bind. cbv beta iota.
  rewrite get_project_run, Hrel. simpl projects. rewrite Hproj, Hwf.
  rewrite list_statuses_run, Hrel.
  fold (status_queries (the (pr_workflowId project)) (cc_name column)).
  rewrite matching_documents.
  rewrite (for_of_reliable _ _ _ (cascade_status_reliable (the (pr_workflowId project)))).
  reflexivity.
Qed.

End ReliableCascade.

(** ** Deletion: what the cascade leaves and in which order it works *)

Lemma fold_delete_transitions l s :
  transitions (fold_left after_delete_transition l s)
    = remove_ids (map wt_id l) (transitions s) /\
  log (fold_left after_delete_transition l s)
    = log s ++ map (fun t => OpDelete WORKFLOW_TRANSITIONS_ID (wt_id t)) l /\
  statuses (fold_left after_delete_transition l s) = statuses s /\
  columns (fold_left after_delete_transition l s) = columns s /\
  projects (fold_left after_delete_transition l s) = projects s.
Proof.
  revert s. induction l as [|t r IH]; intros s; simpl.
  - rewrite app_nil_r. repeat split; reflexivity.
  - destruct (IH (after_delete_transition s t)) as (Ht & Hl & Hs & Hc & Hp).
    rewrite Ht, Hl, Hs, Hc, Hp. simpl. rewrite <- app_assoc.
    repeat split; reflexivity.
Qed.

Lemma after_cascade_fields workflowId l s :
  transitions (after_cascade workflowId l s)
    = cascade_transitions workflowId l (transitions s) /\
  statuses (after_cascade workflowId l s) = remove_ids (map ws_id l) (statuses s) /\
  log (after_cascade workflowId l s)
    = log s ++ cascade_ops workflowId l (transitions s) /\
  columns (after_cascade workflowId l s) = columns s /\
  projects (after_cascade workflowId l s) = projects s.
Proof.
  unfold after_cascade. revert s.
  induction l as [|st r IH]; intros s; simpl.
  - rewrite app_nil_r. repeat split; reflexivity.
  - destruct (IH (after_cascade_status workflowId s st)) as (Ht & Hs & Hl & Hc & Hp).
    rewrite Ht, Hs, Hl, Hc, Hp.
    unfold after_cascade_status, after_delete_status. simpl.
    match goal with
    | |- context [fold_left after_delete_transition ?l ?s0] =>
        destruct (fold_delete_transitions l s0) as (Ft & Fl & Fs & Fc & Fp)
    end.
    rewrite Ft, Fl, Fs, Fc, Fp. simpl.
    rewrite <- !app_assoc. simpl.
    repeat split; reflexivity.
Qed.

Lemma cascade_transitions_incl workflowId l T t :
  In t (cascade_transitions workflowId l T) -> In t T.
Proof.
  revert T. induction l as [|st r IH]; intros T; simpl; [tauto|].
  intros Ht. apply IH in Ht. apply remove_ids_In in Ht. tauto.
Qed.

(** No transition of the workflow that touches a processed status is left. *)
Lemma cascade_transitions_clean workflowId l T st t :
  In st l -> In t (cascade_transitions workflowId l T) ->
  related_transition workflowId (ws_id st) t = false.
Proof.
  revert T. induction l as [|x r IH]; intros T Hst Ht; simpl in *; [tauto|].
  destruct Hst as [->|Hst]; [|eapply IH; eauto].
  apply cascade_transitions_incl in Ht. apply remove_ids_In in Ht.
  destruct Ht as [HT Hid].
  destruct (related_transition workflowId (ws_id st) t) eqn:E; [|reflexivity].
  exfalso. apply Hid. apply (in_map wt_id). apply filter_In. split; assumption.
Qed.

(** A transition deletion is only issued for an id that is in the store. *)
Lemma cascade_ops_delete_present workflowId l T id :
  In (OpDelete WORKFLOW_TRANSITIONS_ID id) (cascade_ops workflowId l T) ->
  exists t, In t T /\ wt_id t = id.
Proof.
  revert T. induction l as [|x r IH]; intros T; simpl; [tauto|].
  intros [Hd|Hd]; [discriminate|].
  apply in_app_or in Hd. destruct Hd as [Hd|[Hd|Hd]]; [|discriminate|].
  - apply in_map_iff in Hd. destruct Hd as (t & E & Ht).
    apply filter_In in Ht. exists t. split; [tauto|]. now inversion E.
  - apply IH in Hd. destruct Hd as (t & Ht & E).
    apply remove_ids_In in Ht. exists t. tauto.
Qed.

Lemma split_after_prefix {A} (l1 l2 pre : list A) (a : A) (post : list A) :
  ~ In a l1 -> l1 ++ l2 = pre ++ a :: post ->
  exists pre', pre = l1 ++ pre' /\ l2 = pre' ++ a :: post.
Proof.
  revert pre. induction l1 as [|c r IH]; intros pre Hn E; simpl in *.
  - exists pre. split; [reflexivity|exact E].
  - destruct pre as [|p pre0]; simpl in E; inversion E; subst.
    + exfalso. apply Hn. now left.
    + destruct (IH pre0) as (pre' & -> & ->); auto.
      exists pre'. split; reflexivity.
Qed.

(** Around every status deletion of the cascade: the deletions of the
    transitions related to that status all come before it, none after. *)
Lemma cascade_ops_order workflowId l : forall T pre statusId post t,
  cascade_ops workflowId l T = pre ++ OpDelete WORKFLOW_STATUSES_ID statusId :: post ->
  related_transition workflowId statusId t = true ->
  In t T \/ (forall t', In t' T -> wt_id t' <> wt_id t) ->
  (In t T -> In (OpDelete WORKFLOW_TRANSITIONS_ID (wt_id t)) pre) /\
  ~ In (OpDelete WORKFLOW_TRANSITIONS_ID (wt_id t)) post.
Proof.
  induction l as [|x r IH]; intros T pre statusId post t E Hrel Hpres; simpl in E.
  - destruct pre; discriminate.
  - set (related := filter (related_transition workflowId (ws_id x)) T) in *.
    set (T' := remove_ids (map wt_id related) T) in *.
    change (OpList WORKFLOW_TRANSITIONS_ID (transition_queries workflowId (ws_id x))
            :: map (fun t => OpDelete WORKFLOW_TRANSITIONS_ID (wt_id t)) related
            ++ OpDelete WORKFLOW_STATUSES_ID (ws_id x) :: cascade_ops workflowId r T')
      with ((OpList WORKFLOW_TRANSITIONS_ID (transition_queries workflowId (ws_id x))
             :: map (fun t => OpDelete WORKFLOW_TRANSITIONS_ID (wt_id t)) related)
            ++ OpDelete WORKFLOW_STATUSES_ID (ws_id x) :: cascade_ops workflowId r T')
      in E.
    apply split_after_prefix in E.
    2:{ intros [Hd|Hd]; [discriminate|].
        apply in_map_iff in Hd. destruct Hd as (? & Hd & _). discriminate. }
    destruct E as (pre' & -> & E).
    assert (In t T -> In (wt_id t) (map wt_id related) ->
            In (OpDelete WORKFLOW_TRANSITIONS_ID (wt_id t))
              (map (fun t => OpDelete WORKFLOW_TRANSITIONS_ID (wt_id t)) related))
      as Hlisted.
    { intros _ Hid. apply in_map_iff in Hid. destruct Hid as (t0 & E0 & H0).
      apply in_map_iff. exists t0. split; [now rewrite E0|exact H0]. }
    destruct pre' as [|p pre'']; simpl in E; inversion E; subst; clear E.
    + (* the deletion of [x] itself *)
      split.
      * intros HT. right. apply in_or_app. left. apply Hlisted; [exact HT|].
        apply in_map. apply filter_In. split; assumption.
      * intros Hd. apply cascade_ops_delete_present in Hd.
        destruct Hd as (t' & Ht' & Eid). apply remove_ids_In in Ht'.
        destruct Ht' as [HT' Hnot].
        destruct Hpres as [HT|Habs]; [|now apply (Habs t')].
        apply Hnot. change (In (wt_id t') (map wt_id related)).
        rewrite Eid. apply in_map. apply filter_In. split; assumption.
    + (* a deletion further down the loop *)
      destruct (in_dec string_dec (wt_id t) (map wt_id related)) as [Hin|Hout].
      * destruct (IH T' pre'' statusId post t) as [_ Hneg]; auto.
        { right. intros t' Ht' Eid. apply remove_ids_In in Ht'.
          destruct Ht' as [_ Hnot]. apply Hnot.
          change (In (wt_id t') (map wt_id related)). now rewrite Eid. }
        split; [|exact Hneg].
        intros HT. right. apply in_or_app. left.
        now apply Hlisted.
      * destruct (IH T' pre'' statusId post t) as [Hpos Hneg]; auto.
        { destruct Hpres as [HT|Habs].
          - left. apply remove_ids_In. split; assumption.
          - right. intros t' Ht'. apply remove_ids_In in Ht'. apply Habs. tauto. }
        split; [|exact Hneg].
        intros HT. right. apply in_or_app. right.
        right. apply Hpos. apply remove_ids_In. split; assumption.
Qed.

Lemma remove_column_reliable oracle customColumnId s :
  reliable_on oracle CUSTOM_COLUMNS_ID ->
  existsb (has_id customColumnId) (columns s) = true ->
  exists pre s1,
    remove_column oracle customColumnId s = (Ok pre, s1) /\
    columns s1 = remove_doc customColumnId (columns s).
Proof.
  intros Hrel Hex.
  unfold remove_column, read_column, try_catch, bind.
  rewrite get_column_run, Hrel by reflexivity.
  destruct (find_doc customColumnId (columns s)); unfold ret; cbv beta iota;
    rewrite delete_column_run, Hrel by reflexivity;
    change (columns (record_op (OpGet CUSTOM_COLUMNS_ID customColumnId) s))
      with (columns s);
    rewrite Hex; eexists _, _; split; reflexivity.
Qed.

Lemma app_delete_after_removal oracle customColumnId s pre s1 :
  remove_column oracle customColumnId s = (Ok pre, s1) ->
  fst (app_delete oracle customColumnId s) = Ok customColumnId /\
  columns (snd (app_delete oracle customColumnId s)) = columns s1.
Proof.
  intros E. unfold app_delete. rewrite (bind_ok _ _ _ _ _ E). unfold bind.
  pose proof (never_throws_tt _ s1
                (cleanup_status_never_throws oracle (fst pre) (snd pre))) as Hn.
  pose proof (cleanup_status_keeps_columns oracle (fst pre) (snd pre) s1) as Hk.
  destruct (cleanup_status oracle (fst pre) (snd pre) s1) as [[[]|e] s2];
    simpl in *; [|discriminate].
  split; [reflexivity|exact Hk].
Qed.



Lemma create_column_result oracle req s column s1 :
  create_column oracle req s = (Ok column, s1) ->
  exists position id, column = documentData req position id.
Proof.
  unfold create_column, finalPosition, bind.
  destruct (req_position req) as [p|].
  - unfold ret, ID_unique. rewrite create_column_doc_run.
    destruct (oracle _ _); [discriminate|]. intros E. inversion E. eauto.
  - rewrite list_columns_run.
    destruct (oracle _ _); [discriminate|]. unfold ret, ID_unique.
    rewrite create_column_doc_run.
    destruct (oracle _ _); [discriminate|]. intros E. inversion E. eauto.
Qed.


(** ** Deletion: failures inside the cascade *)

Section TolerantCascade.
Variable oracle : nat -> Op -> option Exception.

(** Whatever the store does, the deletion of a transition inside the
    cascade is attempted once and does not throw; what it removes, it
    removes by id. *)
Lemma delete_transition_tolerant t s :
  exists s',
    delete_transition oracle t s = (Ok tt, s') /\
    log s' = log s ++ [OpDelete WORKFLOW_TRANSITIONS_ID (wt_id t)] /\
    (forall t0, In t0 (transitions s) ->
       In t0 (transitions s') \/ wt_id t0 = wt_id t).
Proof.
  unfold delete_transition, try_catch. rewrite delete_transition_run.
  destruct (oracle _ _).
  - eexists. split; [reflexivity|]. split; [reflexivity|]. intros t0 H0. now left.
  - destruct (existsb _ _).
    + eexists. split; [reflexivity|]. split; [reflexivity|]. simpl.
      intros t0 H0. destruct (string_dec (wt_id t0) (wt_id t)) as [E|N]; [now right|].
      left. apply remove_doc_In. split; assumption.
    + eexists. split; [reflexivity|]. split; [reflexivity|]. intros t0 H0. now left.
Qed.

Lemma delete_transitions_tolerant l : forall s,
  exists s',
    for_of l (delete_transition oracle) s = (Ok tt, s') /\
    log s' = log s ++ map (fun t => OpDelete WORKFLOW_TRANSITIONS_ID (wt_id t)) l /\
    (forall t0, In t0 (transitions s) ->
       In t0 (transitions s') \/ In (wt_id t0) (map wt_id l)).
Proof.
  induction l as [|t r IH]; intros s; simpl.
  - exists s. rewrite app_nil_r. repeat split. intros t0 H0. now left.
  - destruct (delete_transition_tolerant t s) as (s1 & E1 & L1 & T1).
    destruct (IH s1) as (s' & E & L & T).
    exists s'. rewrite (bind_ok _ _ _ _ _ E1). split; [exact E|]. split.
    + rewrite L, L1, <- app_assoc. reflexivity.
    + intros t0 H0. destruct (T1 t0 H0) as [H1|H1]; [|now right; left].
      destruct (T t0 H1) as [H2|H2]; [now left|now right; right].
Qed.

Lemma delete_status_tolerant st s :
  exists s',
    delete_status oracle st s = (Ok tt, s') /\
    log s' = log s ++ [OpDelete WORKFLOW_STATUSES_ID (ws_id st)] /\
    transitions s' = transitions s.
Proof.
  unfold delete_status, try_catch. rewrite delete_status_run.
  destruct (oracle _ _); [|destruct (existsb _ _)];
    eexists; repeat split; reflexivity.
Qed.

Hypothesis Hfaults : faults_only_in_cascade_deletes oracle.

Lemma cascade_status_tolerant workflowId st s :
  exists s' ops,
    cascade_status oracle workflowId st s = (Ok tt, s') /\
    log s' = log s ++ ops /\
    In (OpDelete WORKFLOW_STATUSES_ID (ws_id st)) ops /\
    (forall t0, In t0 (transitions s) ->
       In t0 (transitions s') \/
       In (OpDelete WORKFLOW_TRANSITIONS_ID (wt_id t0)) ops) /\
    (forall t0, In t0 (transitions s) ->
       related_transition workflowId (ws_id st) t0 = true ->
       In (OpDelete WORKFLOW_TRANSITIONS_ID (wt_id t0)) ops).
Proof.
  unfold cascade_status, bind.
  rewrite list_transitions_run, Hfaults by reflexivity.
  fold (transition_queries workflowId (ws_id st)). rewrite related_documents.
  set (related := filter (related_transition workflowId (ws_id st)) (transitions s)).
  match goal with
  | |- context [for_of related _ ?s0] =>
      destruct (delete_transitions_tolerant related s0) as (s1 & E1 & L1 & T1)
  end.
  rewrite E1.
  destruct (delete_status_tolerant st s1) as (s' & E & L & T).
  assert (forall t0, In (wt_id t0) (map wt_id related) ->
            In (OpDelete WORKFLOW_TRANSITIONS_ID (wt_id t0))
              (map (fun t => OpDelete WORKFLOW_TRANSITIONS_ID (wt_id t)) related))
    as Hlisted.
  { intros t0 Hid. apply in_map_iff in Hid. destruct Hid as (t1 & E0 & H0).
    apply in_map_iff. exists t1. split; [now rewrite E0|exact H0]. }
  exists s'. eexists. split; [exact E|]. split.
  { rewrite L, L1. simpl. rewrite <- !app_assoc. simpl. reflexivity. }
  split; [|split].
  - right. apply in_or_app. right. now left.
  - intros t0 H0. rewrite T. destruct (T1 t0 H0) as [H1|H1]; [now left|].
    right. right. apply in_or_app. left. now apply Hlisted.
  - intros t0 H0 Hr. right. apply in_or_app. left. apply Hlisted.
    apply in_map. apply filter_In. split; assumption.
Qed.

Lemma cascade_tolerant workflowId l : forall s,
  exists s' ops,
    for_of l (cascade_status oracle workflowId) s = (Ok tt, s') /\
    log s' = log s ++ ops /\
    (forall st, In st l -> In (OpDelete WORKFLOW_STATUSES_ID (ws_id st)) ops) /\
    (forall t0, In t0 (transitions s) ->
       In t0 (transitions s') \/
       In (OpDelete WORKFLOW_TRANSITIONS_ID (wt_id t0)) ops) /\
    (forall st t0, In st l -> In t0 (transitions s) ->
       related_transition workflowId (ws_id st) t0 = true ->
       In (OpDelete WORKFLOW_TRANSITIONS_ID (wt_id t0)) ops).
Proof.
  induction l as [|x r IH]; intros s; simpl.
  - exists s, []. rewrite app_nil_r. repeat split; tauto.
  - destruct (cascade_status_tolerant workflowId x s) as (s1 & ops1 & E1 & L1 & D1 & T1 & R1).
    destruct (IH s1) as (s' & ops2 & E & L & D & T & R).
    exists s', (ops1 ++ ops2). rewrite (bind_ok _ _ _ _ _ E1).
    split; [exact E|]. split; [rewrite L, L1, app_assoc; reflexivity|].
    split; [|split].
    + intros st [<-|Hst]; apply in_or_app; [left; exact D1|right; now apply D].
    + intros t0 H0. destruct (T1 t0 H0) as [H1|H1].
      * destruct (T t0 H1) as [H2|H2]; [now left|right; apply in_or_app; now right].
      * right. apply in_or_app. now left.
    + intros st t0 [<-|Hst] H0 Hr; apply in_or_app.
      * left. now apply R1.
      * destruct (T1 t0 H0) as [H1|H1]; [right; eapply R; eauto|now left].
Qed.

End TolerantCascade.


(* ================================================================== *)
(** ** The properties at work on the board *)








(** Creating "In Review" and then "in_review" on the board: one status is
    added by the first request, none by the second. *)
Example in_review_twice :
  let s1 := snd (app_post no_fault Board.in_review Board.store) in
  let s2 := snd (app_post no_fault Board.in_review_again s1) in
  statuses s1 = [Board.todo; Board.done; Board.in_review_status] /\
  statuses s2 = statuses s1 /\
  map cc_position (columns s2) = [1000; 2500; 9000; 3500; 4500].
Proof. vm_compute. repeat split. Qed.

(** With the project collection out of reach, the create still answers
    with the column, writes no status and logs the error. *)
Example create_with_projects_down :
  let r := app_post Board.projects_down Board.in_review Board.store in
  (exists column, fst r = Ok column /\ cc_name column = "In Review") /\
  statuses (snd r) = statuses Board.store /\
  console (snd r) = ["Error syncing custom column to workflow status:"].
Proof. vm_compute. repeat split. eexists. split; reflexivity. Qed.

(** Deleting the column "done" of the board removes the status Done and
    the two transitions that touch it, and leaves the rest. *)
Example delete_done_column :
  let r := app_delete no_fault "c_done" Board.store in
  fst r = Ok "c_done" /\
  statuses (snd r) = [Board.todo] /\
  transitions (snd r) = [Board.refine] /\
  log (snd r) =
    [OpGet CUSTOM_COLUMNS_ID "c_done";
     OpDelete CUSTOM_COLUMNS_ID "c_done";
     OpGet PROJECTS_ID "p1";
     OpList WORKFLOW_STATUSES_ID (status_queries "w1" "done");
     OpList WORKFLOW_TRANSITIONS_ID (transition_queries "w1" "st_done");
     OpDelete WORKFLOW_TRANSITIONS_ID "t_finish";
     OpDelete WORKFLOW_TRANSITIONS_ID "t_reopen";
     OpDelete WORKFLOW_STATUSES_ID "st_done"].
Proof. vm_compute. repeat split. Qed.

(** Deleting the same column a second time: the column is gone, so the
    removal of the column itself throws not-found and no cascade runs. *)
Example delete_done_column_twice :
  let s1 := snd (app_delete no_fault "c_done" Board.store) in
  let r := app_delete no_fault "c_done" s1 in
  fst r = Throw NotFound /\
  statuses (snd r) = statuses s1 /\
  transitions (snd r) = transitions s1.
Proof. vm_compute. repeat split. Qed.

(** When every transition deletion answers not-found, the status is
    deleted all the same and its transitions stay behind. *)
Example delete_with_vanishing_transitions :
  let r := app_delete Board.transitions_vanish "c_done" Board.store in
  fst r = Ok "c_done" /\
  statuses (snd r) = [Board.todo] /\
  transitions (snd r) = [Board.finish; Board.reopen; Board.refine] /\
  console (snd r) = [].
Proof. vm_compute. repeat split. Qed.

(* ================================================================== *)
(** * Further properties of the route *)

(** ** The key normalizer: what a key looks like, which names share one *)

Module KeyFacts.
Import Js.

Lemma upper_not_lower (c : ascii) : is_lower (upper_char c) = false.
Proof. destruct c as [[] [] [] [] [] [] [] []]; reflexivity. Qed.

Lemma separator_upper_char (c : ascii) :
  is_separator (upper_char c) = is_separator c.
Proof. destruct c as [[] [] [] [] [] [] [] []]; reflexivity. Qed.

Lemma upper_lower_fixed (c : ascii) :
  is_lower c = false -> upper_char (lower_char c) = c.
Proof. destruct c as [[] [] [] [] [] [] [] []]; intros E; try reflexivity; discriminate. Qed.

Lemma separator_in_key (c : ascii) :
  is_separator c = true -> (N_of_ascii c =? 95)%N = true -> c = "_"%char.
Proof.
  destruct c as [[] [] [] [] [] [] [] []]; intros E1 E2; try reflexivity;
    discriminate.
Qed.

Lemma key_shape_upper_replace (s : string) (b : bool) :
  key_shape b (map_string upper_char (replace_runs b s)) = true.
Proof.
  revert b. induction s as [|c r IH]; intros b; simpl; [reflexivity|].
  destruct (is_separator c) eqn:E.
  - destruct b; [apply IH|]. simpl. apply IH.
  - simpl. rewrite upper_not_lower, separator_upper_char, E. simpl. apply IH.
Qed.

Lemma replace_runs_fixed (s : string) (b : bool) :
  key_shape b s = true -> replace_runs b s = s.
Proof.
  revert b. induction s as [|c r IH]; intros b; simpl; [reflexivity|].
  destruct (is_lower c); simpl; [discriminate|].
  destruct (is_separator c) eqn:E.
  - destruct (N_of_ascii c =? 95)%N eqn:E95; simpl; [|discriminate].
    destruct b; simpl; [discriminate|]. intros K.
    rewrite (separator_in_key c E E95). f_equal. now apply IH.
  - intros K. f_equal. now apply IH.
Qed.

Lemma key_shape_upper_lower (s : string) (b : bool) :
  key_shape b s = true -> map_string upper_char (map_string lower_char s) = s.
Proof.
  revert b. induction s as [|c r IH]; intros b; simpl; [reflexivity|].
  destruct (is_lower c) eqn:El; simpl; [discriminate|].
  intros K. rewrite (upper_lower_fixed c El). f_equal.
  destruct (is_separator c).
  - apply andb_prop in K. destruct K as [_ K]. now apply (IH true).
  - now apply (IH false).
Qed.

Lemma map_string_append (f : ascii -> ascii) (a b : string) :
  map_string f (String.append a b) = String.append (map_string f a) (map_string f b).
Proof. induction a as [|c r IH]; simpl; [reflexivity|]. now rewrite IH. Qed.

Lemma replace_runs_append (a x : string) (b : bool) :
  replace_runs b (String.append a x)
  = String.append (replace_runs b a) (replace_runs (run_state b a) x).
Proof.
  revert b. induction a as [|c r IH]; intros b; simpl; [reflexivity|].
  destruct (is_separator c); [destruct b|]; simpl; now rewrite IH.
Qed.

Lemma replace_runs_separators (s : string) (b : bool) :
  all_separators s = true -> s <> EmptyString ->
  replace_runs b s = (if b then EmptyString else "_") /\ run_state b s = true.
Proof.
  revert b. induction s as [|c r IH]; intros b A N; [congruence|].
  simpl in *. apply andb_prop in A. destruct A as [Ec Ar]. rewrite Ec.
  destruct r as [|d r'].
  - simpl. destruct b; split; reflexivity.
  - destruct (IH true Ar) as [R S]; [discriminate|].
    rewrite S. destruct b; rewrite R; split; reflexivity.
Qed.

Lemma all_separators_lower (s : string) :
  all_separators (map_string lower_char s) = all_separators s.
Proof.
  induction s as [|c r IH]; simpl; [reflexivity|].
  now rewrite NormalizerFacts.separator_lower_char, IH.
Qed.

Lemma map_string_nonempty (f : ascii -> ascii) (s : string) :
  s <> EmptyString -> map_string f s <> EmptyString.
Proof. destruct s; [congruence|discriminate]. Qed.

End KeyFacts.





(** ** Listing: GET / *)

Section AscendingOrder.
Context {D : Type} `{Document D}.
Variable a : string.

Lemma insert_ordered_perm (desc : bool) (x : D) (l : list D) :
  Permutation (insert_ordered a desc x l) (x :: l).
Proof.
  induction l as [|y r IH]; simpl; [apply Permutation_refl|].
  destruct (goes_before a desc x y) eqn:E; [apply Permutation_refl|].
  eapply perm_trans; [apply perm_skip, IH|apply perm_swap].
Qed.

Lemma order_by_perm (desc : bool) (l : list D) : Permutation (order_by a desc l) l.
Proof.
  induction l as [|x r IH]; simpl; [apply perm_nil|].
  eapply perm_trans; [apply insert_ordered_perm|]. now apply perm_skip.
Qed.

Lemma insert_ordered_sorted (x : D) (l : list D) :
  StronglySorted (fun u v => num_of (doc_attr u a) <= num_of (doc_attr v a)) l ->
  StronglySorted (fun u v => num_of (doc_attr u a) <= num_of (doc_attr v a))
    (insert_ordered a false x l).
Proof.
  induction l as [|y r IH]; intros S; simpl.
  - constructor; constructor.
  - inversion S as [|? ? Sr Fy]; subst. unfold goes_before.
    destruct (Z.leb_spec (num_of (doc_attr x a)) (num_of (doc_attr y a))).
    + constructor; [exact S|]. constructor; [assumption|].
      eapply Forall_impl; [|exact Fy]. simpl. intros z Hz. lia.
    + constructor; [now apply IH|].
      eapply Permutation_Forall; [apply Permutation_sym, insert_ordered_perm|].
      constructor; [lia|exact Fy].
Qed.

Lemma order_by_sorted (l : list D) :
  StronglySorted (fun u v => num_of (doc_attr u a) <= num_of (doc_attr v a))
    (order_by a false l).
Proof.
  induction l as [|x r IH]; simpl; [constructor|].
  now apply insert_ordered_sorted.
Qed.

(** A document above all the others goes to the end of the ascending
    order. *)
Lemma insert_ordered_below_last (x c : D) (l : list D) :
  num_of (doc_attr x a) <= num_of (doc_attr c a) ->
  insert_ordered a false x (l ++ [c]) = insert_ordered a false x l ++ [c].
Proof.
  intros Hx. induction l as [|y r IH]; simpl.
  - unfold goes_before. destruct (Z.leb_spec (num_of (doc_attr x a))
                                    (num_of (doc_attr c a))); [reflexivity|lia].
  - unfold goes_before.
    destruct (num_of (doc_attr x a) <=? num_of (doc_attr y a)); [reflexivity|].
    simpl. now rewrite IH.
Qed.

Lemma insert_ordered_at_end (c : D) (l : list D) :
  (forall x, In x l -> num_of (doc_attr x a) < num_of (doc_attr c a)) ->
  insert_ordered a false c l = l ++ [c].
Proof.
  induction l as [|y r IH]; intros Hl; simpl; [reflexivity|].
  unfold goes_before.
  destruct (Z.leb_spec (num_of (doc_attr c a)) (num_of (doc_attr y a))).
  - specialize (Hl y (or_introl eq_refl)). lia.
  - rewrite IH; [reflexivity|]. intros x Hx. apply Hl. now right.
Qed.

Lemma order_by_last (c : D) (l : list D) :
  (forall x, In x l -> num_of (doc_attr x a) < num_of (doc_attr c a)) ->
  order_by a false (l ++ [c]) = order_by a false l ++ [c].
Proof.
  induction l as [|y r IH]; intros Hl; simpl; [reflexivity|].
  rewrite IH by (intros x Hx; apply Hl; now right).
  apply insert_ordered_below_last.
  specialize (Hl y (or_introl eq_refl)). lia.
Qed.

End AscendingOrder.

Lemma listing_query_matches workspaceId projectId workflowId (c : CustomColumn) :
  matches_all
    ([Query.equal "workspaceId" (VStr workspaceId); Query.orderAsc "position"]
     ++ (if Js.truthy projectId
         then [Query.equal "projectId" (VStr (the projectId))] else [])
     ++ (if Js.truthy workflowId
         then [Query.equal "workflowId" (VStr (the workflowId))] else [])) c
  = listed workspaceId projectId workflowId c.
Proof.
  unfold matches_all, listed.
  destruct (Js.truthy projectId), (Js.truthy workflowId);
    simpl; rewrite ?andb_true_r, ?andb_assoc; reflexivity.
Qed.

Lemma listing_documents workspaceId projectId workflowId (cols : list CustomColumn) :
  documents
    (run_queries
       ([Query.equal "workspaceId" (VStr workspaceId); Query.orderAsc "position"]
        ++ (if Js.truthy projectId
            then [Query.equal "projectId" (VStr (the projectId))] else [])
        ++ (if Js.truthy workflowId
            then [Query.equal "workflowId" (VStr (the workflowId))] else [])) cols)
  = order_by "position" false (filter (listed workspaceId projectId workflowId) cols).
Proof.
  unfold run_queries, apply_limit, apply_ordering.
  rewrite (filter_ext _ _ (listing_query_matches workspaceId projectId workflowId)).
  destruct (Js.truthy projectId), (Js.truthy workflowId); reflexivity.
Qed.

Lemma app_get_reliable oracle workspaceId projectId workflowId s :
  reliable_on oracle CUSTOM_COLUMNS_ID ->
  exists r s',
    app_get oracle workspaceId projectId workflowId s = (Ok r, s') /\
    documents r
    = order_by "position" false
        (filter (listed workspaceId projectId workflowId) (columns s)).
Proof.
  intros Hrel. unfold app_get. rewrite list_columns_run, Hrel by reflexivity.
  eexists _, _. split; [reflexivity|]. apply listing_documents.
Qed.

(** X4. When the listing call goes through, GET / answers with exactly the
    columns of the workspace that belong to the project and to the workflow
    of the query, when the query names them; they come in ascending order
    of position, [total] is their number, and the request changes no
    collection. *)
Theorem get_lists_the_scope_in_order
  (oracle : nat -> Op -> option Exception) (workspaceId : string)
  (projectId workflowId : option string) (s : Store) :
  reliable_on oracle CUSTOM_COLUMNS_ID ->
  exists r s',
    app_get oracle workspaceId projectId workflowId s = (Ok r, s') /\
    Permutation (documents r)
      (filter (listed workspaceId projectId workflowId) (columns s)) /\
    StronglySorted position_le (documents r) /\
    total r = List.length (documents r) /\
    columns s' = columns s /\ projects s' = projects s /\
    statuses s' = statuses s /\ transitions s' = transitions s.
Proof.
  intros Hrel. unfold app_get.
  rewrite list_columns_run, Hrel by reflexivity.
  eexists _, _. split; [reflexivity|].
  rewrite listing_documents.
  split; [apply order_by_perm|]. split.
  { change (StronglySorted
              (fun u v : CustomColumn =>
                 num_of (doc_attr u "position") <= num_of (doc_attr v "position"))
              (order_by "position" false
                 (filter (listed workspaceId projectId workflowId) (columns s)))).
    apply order_by_sorted. }
  split; [|repeat split].
  unfold run_queries. cbn [total].
  rewrite (filter_ext _ _ (listing_query_matches workspaceId projectId workflowId)).
  symmetry. apply Permutation_length, order_by_perm.
Qed.

Lemma get_lists_the_scope_in_order_witness :
  exists r s',
    app_get no_fault "ws1" (Some "p1") None Board.store = (Ok r, s') /\
    Permutation (documents r) [Board.done_column; Board.blocked_column] /\
    StronglySorted position_le (documents r) /\
    total r = List.length (documents r) /\
    columns s' = columns Board.store /\ projects s' = projects Board.store /\
    statuses s' = statuses Board.store /\ transitions s' = transitions Board.store.
Proof.
  apply (get_lists_the_scope_in_order no_fault "ws1" (Some "p1") None Board.store).
  intros n op E. reflexivity.
Defined.

(** ** Which store calls a handler issues *)

Section Issues.
Variable P : Op -> Prop.

Lemma issues_ret {A} (a : A) : issues P (ret a).
Proof. intros s. exists []. rewrite app_nil_r. split; [reflexivity|constructor]. Qed.

Lemma issues_bind {A B} (m : M A) (k : A -> M B) :
  issues P m -> (forall a, issues P (k a)) -> issues P (bind m k).
Proof.
  intros Hm Hk s. unfold bind. destruct (Hm s) as (ops & L & F).
  destruct (m s) as [[a|e] s1]; simpl in *; [|now exists ops].
  destruct (Hk a s1) as (ops' & L' & F').
  exists (ops ++ ops'). rewrite L', L, app_assoc. split; [reflexivity|].
  apply Forall_app. now split.
Qed.

Lemma issues_try_catch {A} (m : M A) (h : Exception -> M A) :
  issues P m -> (forall e, issues P (h e)) -> issues P (try_catch m h).
Proof.
  intros Hm Hh s. unfold try_catch. destruct (Hm s) as (ops & L & F).
  destruct (m s) as [[a|e] s1]; simpl in *; [now exists ops|].
  destruct (Hh e s1) as (ops' & L' & F').
  exists (ops ++ ops'). rewrite L', L, app_assoc. split; [reflexivity|].
  apply Forall_app. now split.
Qed.

Lemma issues_for_of {D} (l : list D) (body : D -> M unit) :
  (forall x, issues P (body x)) -> issues P (for_of l body).
Proof.
  intros Hb. induction l as [|x r IH]; simpl.
  - apply issues_ret.
  - apply issues_bind; [apply Hb|]. intros _. exact IH.
Qed.

Lemma issues_console_error msg : issues P (console_error msg).
Proof. intros s. exists []. rewrite app_nil_r. split; [reflexivity|constructor]. Qed.

Lemma issues_ID_unique : issues P ID_unique.
Proof. intros s. exists []. rewrite app_nil_r. split; [reflexivity|constructor]. Qed.

Variable oracle : nat -> Op -> option Exception.

Lemma issues_call op : P op -> issues P (call oracle op).
Proof.
  intros Hop s. exists [op]. unfold call.
  destruct (oracle _ _); simpl; (split; [reflexivity|now constructor]).
Qed.

Lemma issues_state {A} (f : Store -> Outcome A * Store) :
  (forall s, log (snd (f s)) = log s) -> issues P f.
Proof.
  intros E s. exists []. rewrite app_nil_r. split; [apply E|constructor].
Qed.

Lemma issues_listDocuments {D} `{Document D} (C : Coll D) qs :
  P (OpList (coll_id C) qs) -> issues P (listDocuments oracle C qs).
Proof.
  intros Hop. unfold listDocuments. apply issues_bind; [now apply issues_call|].
  intros _. apply issues_state. reflexivity.
Qed.

Lemma issues_getDocument {D} `{Document D} (C : Coll D) id :
  P (OpGet (coll_id C) id) -> issues P (getDocument oracle C id).
Proof.
  intros Hop. unfold getDocument. apply issues_bind; [now apply issues_call|].
  intros _. apply issues_state. intros s. now destruct (find_doc _ _).
Qed.

End Issues.

Lemma issues_create_column P oracle id data :
  P (OpCreate CUSTOM_COLUMNS_ID id) ->
  issues P (createDocument oracle Columns id data).
Proof.
  intros Hop. unfold createDocument. apply issues_bind; [now apply issues_call|].
  intros _. apply issues_state. reflexivity.
Qed.

Lemma issues_create_status P oracle id data :
  P (OpCreate WORKFLOW_STATUSES_ID id) ->
  issues P (createDocument oracle Statuses id data).
Proof.
  intros Hop. unfold createDocument. apply issues_bind; [now apply issues_call|].
  intros _. apply issues_state. reflexivity.
Qed.

Lemma issues_delete_column P oracle id :
  P (OpDelete CUSTOM_COLUMNS_ID id) -> issues P (deleteDocument oracle Columns id).
Proof.
  intros Hop. unfold deleteDocument. apply issues_bind; [now apply issues_call|].
  intros _. apply issues_state. intros s. simpl. now destruct (existsb _ _).
Qed.

Lemma issues_delete_status P oracle id :
  P (OpDelete WORKFLOW_STATUSES_ID id) -> issues P (deleteDocument oracle Statuses id).
Proof.
  intros Hop. unfold deleteDocument. apply issues_bind; [now apply issues_call|].
  intros _. apply issues_state. intros s. simpl. now destruct (existsb _ _).
Qed.

Lemma issues_delete_transition P oracle id :
  P (OpDelete WORKFLOW_TRANSITIONS_ID id) ->
  issues P (deleteDocument oracle Transitions id).
Proof.
  intros Hop. unfold deleteDocument. apply issues_bind; [now apply issues_call|].
  intros _. apply issues_state. intros s. simpl. now destruct (existsb _ _).
Qed.

(** Decompose a handler along its control flow; the leaves are store calls,
    each of which must satisfy the predicate. *)
Ltac issue :=
  repeat first
    [ apply issues_ret
    | apply issues_console_error
    | apply issues_ID_unique
    | apply issues_listDocuments; reflexivity
    | apply issues_getDocument; reflexivity
    | apply issues_create_column; reflexivity
    | apply issues_create_status; reflexivity
    | apply issues_delete_column; reflexivity
    | apply issues_delete_status; reflexivity
    | apply issues_delete_transition; reflexivity
    | apply issues_try_catch; [|intros ?]
    | apply issues_for_of; intros ?
    | apply issues_bind; [|intros ?]
    | match goal with
      | |- issues _ (if ?b then _ else _) => destruct b
      | |- issues _ (match ?x with _ => _ end) => destruct x
      end ].

Lemma create_column_issues oracle req :
  issues (fun op => column_call op = true /\ create_call op = true)
    (create_column oracle req).
Proof.
  unfold create_column, finalPosition.
  apply issues_bind; [destruct (req_position req)|intros position].
  - apply issues_ret.
  - apply issues_bind; [|intros ?; apply issues_ret].
    apply issues_listDocuments. split; reflexivity.
  - apply issues_bind; [apply issues_ID_unique|intros id].
    apply issues_create_column. split; reflexivity.
Qed.

Lemma sync_status_issues oracle req :
  issues (fun op => create_call op = true) (sync_status oracle req).
Proof. unfold sync_status, sync_status_body. issue. Qed.

Lemma issues_weaken {A} (P Q : Op -> Prop) (m : M A) :
  (forall op, P op -> Q op) -> issues P m -> issues Q m.
Proof.
  intros PQ Hm s. destruct (Hm s) as (ops & L & F). exists ops.
  split; [exact L|]. eapply Forall_impl; eauto.
Qed.

(** X5. Whatever the store does, a create issues only these calls: listing
    and creating columns, reading the project, listing and creating
    statuses.  It never updates or deletes a document and never touches the
    transitions. *)
Theorem create_issues_no_update_no_delete
  (oracle : nat -> Op -> option Exception) (req : CreateCustomColumn) (s : Store) :
  exists ops,
    log (snd (app_post oracle req s)) = log s ++ ops /\
    Forall (fun op => create_call op = true) ops.
Proof.
  revert s. change (issues (fun op => create_call op = true) (app_post oracle req)).
  unfold app_post.
  apply issues_bind; [|intros col; apply issues_bind; [|intros ?; apply issues_ret]].
  - eapply issues_weaken; [|apply create_column_issues]. now intros op [_ H].
  - apply sync_status_issues.
Qed.

(** X6. Whatever the store does, a delete issues only these calls: reading
    and deleting the column, reading the project, listing and deleting
    statuses and transitions.  It never creates or updates a document. *)
Theorem delete_issues_no_create_no_update
  (oracle : nat -> Op -> option Exception) (customColumnId : string) (s : Store) :
  exists ops,
    log (snd (app_delete oracle customColumnId s)) = log s ++ ops /\
    Forall (fun op => delete_call op = true) ops.
Proof.
  revert s.
  change (issues (fun op => delete_call op = true) (app_delete oracle customColumnId)).
  unfold app_delete, remove_column, read_column, cleanup_status, cleanup_body,
    cascade_status, delete_transition, delete_status.
  issue.
Qed.

(** ** Creation: links, failures and what a create can change *)

Lemma truthy_without_falsy (o : option string) :
  Js.truthy (if Js.truthy o then o else None) = Js.truthy o.
Proof. destruct (Js.truthy o) eqn:E; [exact E|reflexivity]. Qed.

Lemma without_falsy_twice (o : option string) :
  (if Js.truthy (if Js.truthy o then o else None)
   then (if Js.truthy o then o else None) else None)
  = (if Js.truthy o then o else None).
Proof. destruct (Js.truthy o) eqn:E; [now rewrite E|reflexivity]. Qed.

Lemma filterQueries_without_falsy ws (p w : option string) :
  filterQueries ws (if Js.truthy p then p else None) (if Js.truthy w then w else None)
  = filterQueries ws p w.
Proof.
  unfold filterQueries. rewrite !truthy_without_falsy.
  destruct (Js.truthy p), (Js.truthy w); reflexivity.
Qed.

(** X7. A link that is falsy is a link that is absent: a request whose
    projectId or workflowId is the empty string is served exactly as the
    request without that field, outcome and store alike. *)
Theorem create_treats_falsy_links_as_absent
  (oracle : nat -> Op -> option Exception) (req : CreateCustomColumn) (s : Store) :
  app_post oracle req s = app_post oracle (without_falsy_links req) s.
Proof.
  assert (forall position id,
            documentData (without_falsy_links req) position id
            = documentData req position id) as Hdata.
  { intros position id. unfold documentData, without_falsy_links. simpl.
    now rewrite !without_falsy_twice. }
  assert (forall s0, create_column oracle (without_falsy_links req) s0
                     = create_column oracle req s0) as Hcreate.
  { intros s0. unfold create_column, finalPosition, bind.
    cbn [without_falsy_links req_position req_workspaceId req_projectId
         req_workflowId].
    rewrite filterQueries_without_falsy.
    destruct (req_position req) as [p|].
    - unfold ret, ID_unique. rewrite !create_column_doc_run.
      destruct (oracle _ _); [reflexivity|]. now rewrite Hdata.
    - destruct (listDocuments oracle Columns _ s0) as [[r|e] s1]; [|reflexivity].
      unfold ret, ID_unique. rewrite !create_column_doc_run.
      destruct (oracle _ _); [reflexivity|]. now rewrite Hdata. }
  assert (forall s0, sync_status oracle (without_falsy_links req) s0
                     = sync_status oracle req s0) as Hsync.
  { intros s0. unfold sync_status. simpl. rewrite !truthy_without_falsy.
    destruct (Js.truthy (req_projectId req)) eqn:Ep; [|reflexivity].
    destruct (Js.truthy (req_workflowId req)) eqn:Ew; [reflexivity|].
    simpl. unfold sync_status_body. simpl. rewrite Ep. reflexivity. }
  unfold app_post, bind. rewrite Hcreate.
  destruct (create_column oracle req s) as [[col|e] s1]; [|reflexivity].
  now rewrite Hsync.
Qed.

Lemma create_column_outcomes oracle req s :
  (exists e s1, create_column oracle req s = (Throw e, s1) /\
     columns s1 = columns s) \/
  (exists col s1, create_column oracle req s = (Ok col, s1) /\
     columns s1 = columns s ++ [col]).
Proof.
  unfold create_column, finalPosition, bind.
  destruct (req_position req) as [p|].
  - unfold ret, ID_unique. rewrite create_column_doc_run.
    destruct (oracle _ _); [left|right]; eexists _, _; split; reflexivity.
  - rewrite list_columns_run.
    destruct (oracle _ _); [left; eexists _, _; split; reflexivity|].
    unfold ret, ID_unique. rewrite create_column_doc_run.
    destruct (oracle _ _); [left|right]; eexists _, _; split; reflexivity.
Qed.

(** X8. A create that fails writes nothing: when the request throws,
    columns, projects, statuses and transitions are as they were. *)
Theorem failed_create_writes_nothing
  (oracle : nat -> Op -> option Exception) (req : CreateCustomColumn) (s : Store)
  (e : Exception) :
  fst (app_post oracle req s) = Throw e ->
  let s' := snd (app_post oracle req s) in
  columns s' = columns s /\ projects s' = projects s /\
  statuses s' = statuses s /\ transitions s' = transitions s.
Proof.
  intros Hthrow s'. subst s'. revert Hthrow.
  pose proof (column_write_keeps_projects oracle req s) as Kp.
  pose proof (column_write_keeps_statuses oracle req s) as Ks.
  pose proof (column_write_keeps_transitions oracle req s) as Kt.
  unfold app_post, bind.
  destruct (create_column_outcomes oracle req s)
    as [(e1 & s1 & E & Hc)|(col & s1 & E & Hc)]; rewrite E in *; simpl in *.
  - intros _. auto.
  - pose proof (never_throws_tt _ s1 (sync_status_never_throws oracle req)) as Hn.
    destruct (sync_status oracle req s1) as [[[]|e2] s2]; simpl in *; discriminate.
Qed.

Lemma failed_create_writes_nothing_witness :
  let s' := snd (app_post column_create_down Board.in_review Board.store) in
  columns s' = columns Board.store /\ projects s' = projects Board.store /\
  statuses s' = statuses Board.store /\ transitions s' = transitions Board.store.
Proof.
  apply (failed_create_writes_nothing column_create_down Board.in_review
           Board.store Unavailable).
  reflexivity.
Defined.

(** The column write when the calls on the column collection go through. *)
Lemma create_column_reliable oracle req s :
  reliable_on oracle CUSTOM_COLUMNS_ID ->
  exists s1 ops,
    create_column oracle req s
      = (Ok (documentData req (stored_position req (columns s)) (unique_id (fresh s))),
         s1) /\
    columns s1
      = columns s
        ++ [documentData req (stored_position req (columns s)) (unique_id (fresh s))] /\
    projects s1 = projects s /\ statuses s1 = statuses s /\
    transitions s1 = transitions s /\ console s1 = console s /\
    fresh s1 = S (fresh s) /\
    log s1 = log s ++ ops /\
    (req_position req <> None -> ops = [OpCreate CUSTOM_COLUMNS_ID (unique_id (fresh s))]).
Proof.
  intros Hrel. unfold create_column, finalPosition, stored_position, bind.
  destruct (req_position req) as [p|].
  - unfold ret, ID_unique. rewrite create_column_doc_run, Hrel by reflexivity.
    eexists _, _. repeat split.
  - rewrite list_columns_run, Hrel by reflexivity.
    rewrite <- next_column_position.
    unfold ret, ID_unique. rewrite create_column_doc_run, Hrel by reflexivity.
    eexists _, [_; _]. repeat split.
    + simpl. rewrite <- app_assoc. reflexivity.
    + intros H. now elim H.
Qed.

Lemma sync_status_outcomes oracle req s :
  let s' := snd (sync_status oracle req s) in
  columns s' = columns s /\ projects s' = projects s /\
  transitions s' = transitions s /\
  (statuses s' = statuses s \/
   exists workflowId position id,
     statuses s' = statuses s
       ++ [statusData workflowId (req_name req) (Js.normalizedKey (req_name req))
             (req_icon req) (req_color req) position id]).
Proof.
  simpl. split; [apply sync_status_keeps_columns|].
  split; [apply sync_status_keeps_projects|].
  split; [apply sync_status_keeps_transitions|].
  unfold sync_status.
  destruct (Js.truthy (req_projectId req) && negb (Js.truthy (req_workflowId req)));
    [|now left].
  unfold try_catch, sync_status_body, bind.
  rewrite get_project_run.
  destruct (oracle _ _); [now left|].
  destruct (find_doc _ _) as [project|]; [|now left].
  destruct (Js.truthy (pr_workflowId project)); [|now left].
  rewrite list_statuses_run.
  destruct (oracle _ _); [now left|].
  destruct (Nat.eqb _ 0); [|now left].
  rewrite list_statuses_run.
  destruct (oracle _ _); [now left|].
  unfold ID_unique. rewrite create_status_doc_run.
  destruct (oracle _ _); [now left|].
  right. eexists _, _, _. reflexivity.
Qed.


(** X10. A request without a project link - a workspace column or a
    standalone workflow column - never reaches the synchronization: the
    only calls issued are calls on the column collection, and statuses and
    transitions stay as they were, whatever the store does. *)
Theorem create_without_project_skips_sync
  (oracle : nat -> Op -> option Exception) (req : CreateCustomColumn) (s : Store) :
  Js.truthy (req_projectId req) = false ->
  let s' := snd (app_post oracle req s) in
  (exists ops, log s' = log s ++ ops /\ Forall (fun op => column_call op = true) ops) /\
  statuses s' = statuses s /\ transitions s' = transitions s.
Proof.
  intros Hp. simpl.
  pose proof (column_write_keeps_statuses oracle req s) as Ks.
  pose proof (column_write_keeps_transitions oracle req s) as Kt.
  destruct (create_column_issues oracle req s) as (ops & L & F).
  unfold app_post, bind, sync_status. rewrite Hp. simpl.
  destruct (create_column oracle req s) as [[col|e] s1]; simpl in *;
    (split; [exists ops; split; [exact L|]|now split]);
    (eapply Forall_impl; [|exact F]; now intros op [H _]).
Qed.

Lemma create_without_project_skips_sync_witness :
  let req := {| req_name := "Done"; req_workspaceId := "ws1";
                req_projectId := None; req_workflowId := Some "w1";
                req_icon := None; req_color := None; req_position := None |} in
  let s' := snd (app_post no_fault req Board.store) in
  (exists ops, log s' = log Board.store ++ ops /\
               Forall (fun op => column_call op = true) ops) /\
  statuses s' = statuses Board.store /\ transitions s' = transitions Board.store.
Proof.
  apply (create_without_project_skips_sync no_fault
           {| req_name := "Done"; req_workspaceId := "ws1";
              req_projectId := None; req_workflowId := Some "w1";
              req_icon := None; req_color := None; req_position := None |}
           Board.store).
  reflexivity.
Defined.

(** X11. A position given in the request is stored as it is, zero and
    negative values included, and no listing of the columns is issued for
    it: the column write is the single call on the column collection. *)
Theorem explicit_position_is_stored_as_given
  (oracle : nat -> Op -> option Exception) (req : CreateCustomColumn) (s : Store)
  (position : Z) :
  req_position req = Some position ->
  reliable_on oracle CUSTOM_COLUMNS_ID ->
  exists col s' ops,
    app_post oracle req s = (Ok col, s') /\
    cc_position col = position /\
    columns s' = columns s ++ [col] /\
    log s' = log s ++ OpCreate CUSTOM_COLUMNS_ID (cc_id col) :: ops /\
    Forall (fun op => column_call op = false) ops.
Proof.
  intros Hpos Hrel.
  destruct (create_column_reliable oracle req s Hrel)
    as (s1 & ops1 & E & Hc & _ & _ & _ & _ & _ & L1 & Hops).
  rewrite (Hops ltac:(congruence)) in L1.
  pose proof (never_throws_tt _ s1 (sync_status_never_throws oracle req)) as Hn.
  pose proof (sync_status_keeps_columns oracle req s1) as Kc.
  assert (issues (fun op => column_call op = false) (sync_status oracle req)) as Hi.
  { unfold sync_status, sync_status_body. issue. }
  destruct (Hi s1) as (ops & L & F).
  unfold app_post. rewrite (bind_ok _ _ _ _ _ E). unfold bind.
  destruct (sync_status oracle req s1) as [[[]|e] s2]; simpl in *; [|discriminate].
  eexists _, s2, ops. split; [reflexivity|].
  split; [unfold stored_position; now rewrite Hpos|].
  split; [congruence|]. split; [|exact F].
  rewrite L, L1, <- app_assoc. reflexivity.
Qed.

Lemma explicit_position_is_stored_as_given_witness :
  exists col s' ops,
    app_post no_fault Board.both_links Board.store = (Ok col, s') /\
    cc_position col = 42 /\
    columns s' = columns Board.store ++ [col] /\
    log s' = log Board.store ++ OpCreate CUSTOM_COLUMNS_ID (cc_id col) :: ops /\
    Forall (fun op => column_call op = false) ops.
Proof.
  apply (explicit_position_is_stored_as_given no_fault Board.both_links Board.store 42).
  - reflexivity.
  - intros n op E. reflexivity.
Defined.

(** X12. A project that is linked to no workflow takes no part in the
    synchronization, and that is not an error: when the column and project
    calls go through, the create answers with the column, the project
    lookup is the last call issued, the statuses stay as they were and
    nothing is written to the console. *)
Theorem create_for_project_without_workflow
  (oracle : nat -> Op -> option Exception) (req : CreateCustomColumn) (s : Store)
  (project : Project) :
  reliable_on oracle CUSTOM_COLUMNS_ID ->
  reliable_on oracle PROJECTS_ID ->
  Js.truthy (req_projectId req) = true ->
  Js.truthy (req_workflowId req) = false ->
  find_doc (the (req_projectId req)) (projects s) = Some project ->
  Js.truthy (pr_workflowId project) = false ->
  exists col s' ops,
    app_post oracle req s = (Ok col, s') /\
    log s' = log s ++ ops ++ [OpGet PROJECTS_ID (the (req_projectId req))] /\
    Forall (fun op => column_call op = true) ops /\
    statuses s' = statuses s /\
    console s' = console s.
Proof.
  intros Hc Hpj Hp Hw Hfind Hnw.
  destruct (create_column_reliable oracle req s Hc)
    as (s1 & ops1 & E & _ & Kp & Ks & _ & Kc & _ & L1 & _).
  destruct (create_column_issues oracle req s) as (ops & L & F).
  rewrite E in L. simpl in L.
  unfold app_post. rewrite (bind_ok _ _ _ _ _ E). unfold bind, sync_status.
  rewrite Hp, Hw. simpl.
  unfold try_catch, sync_status_body, bind.
  rewrite get_project_run, Hpj by reflexivity. rewrite Kp, Hfind, Hnw.
  eexists _, _, ops. split; [reflexivity|]. simpl.
  split; [now rewrite L, app_assoc|]. split; [|split; assumption].
  eapply Forall_impl; [|exact F]. now intros op [H _].
Qed.

Lemma create_for_project_without_workflow_witness :
  let s := {| columns := []; projects := [{| pr_id := "p9"; pr_workflowId := None |}];
              statuses := [Board.todo]; transitions := []; log := [];
              console := []; fresh := 0 |} in
  let req := {| req_name := "To Do"; req_workspaceId := "ws1";
                req_projectId := Some "p9"; req_workflowId := None;
                req_icon := None; req_color := None; req_position := None |} in
  exists col s' ops,
    app_post no_fault req s = (Ok col, s') /\
    log s' = log s ++ ops ++ [OpGet PROJECTS_ID "p9"] /\
    Forall (fun op => column_call op = true) ops /\
    statuses s' = statuses s /\
    console s' = console s.
Proof.
  apply (create_for_project_without_workflow no_fault
           {| req_name := "To Do"; req_workspaceId := "ws1";
              req_projectId := Some "p9"; req_workflowId := None;
              req_icon := None; req_color := None; req_position := None |}
           {| columns := []; projects := [{| pr_id := "p9"; pr_workflowId := None |}];
              statuses := [Board.todo]; transitions := []; log := [];
              console := []; fresh := 0 |}
           {| pr_id := "p9"; pr_workflowId := None |}).
  - intros n op E. reflexivity.
  - intros n op E. reflexivity.
  - reflexivity.
  - reflexivity.
  - reflexivity.
  - reflexivity.
Defined.

(** X13. A project column whose project is not in the store is created all
    the same: when the column calls go through, the create answers with the
    column, the failed lookup is caught, one line is written to the console
    and the statuses stay as they were. *)
Theorem create_for_missing_project
  (oracle : nat -> Op -> option Exception) (req : CreateCustomColumn) (s : Store) :
  reliable_on oracle CUSTOM_COLUMNS_ID ->
  Js.truthy (req_projectId req) = true ->
  Js.truthy (req_workflowId req) = false ->
  find_doc (the (req_projectId req)) (projects s) = None ->
  exists col s',
    app_post oracle req s = (Ok col, s') /\
    columns s' = columns s ++ [col] /\
    statuses s' = statuses s /\
    console s' = console s ++ ["Error syncing custom column to workflow status:"].
Proof.
  intros Hc Hp Hw Hfind.
  destruct (create_column_reliable oracle req s Hc)
    as (s1 & ops1 & E & Kcol & Kp & Ks & _ & Kc & _ & L1 & _).
  unfold app_post. rewrite (bind_ok _ _ _ _ _ E). unfold bind, sync_status.
  rewrite Hp, Hw. simpl.
  unfold try_catch, sync_status_body, bind.
  rewrite get_project_run, Kp, Hfind.
  destruct (oracle _ _); eexists _, _; (split; [reflexivity|]); simpl;
    rewrite Kcol, Ks, Kc; repeat split.
Qed.

Lemma create_for_missing_project_witness :
  let req := {| req_name := "Ideas"; req_workspaceId := "ws1";
                req_projectId := Some "p2"; req_workflowId := None;
                req_icon := None; req_color := None; req_position := None |} in
  exists col s',
    app_post no_fault req Board.store = (Ok col, s') /\
    columns s' = columns Board.store ++ [col] /\
    statuses s' = statuses Board.store /\
    console s' = console Board.store
                 ++ ["Error syncing custom column to workflow status:"].
Proof.
  apply (create_for_missing_project no_fault
           {| req_name := "Ideas"; req_workspaceId := "ws1";
              req_projectId := Some "p2"; req_workflowId := None;
              req_icon := None; req_color := None; req_position := None |}
           Board.store).
  - intros n op E. reflexivity.
  - reflexivity.
  - reflexivity.
  - reflexivity.
Defined.

(** ** Creation followed by a listing or by another creation *)

Lemma max_of_bounds (l : list Z) (m x : Z) :
  max_of l = Some m -> In x l -> x <= m.
Proof.
  destruct l as [|y r]; [discriminate|]. simpl. intros E Hx. inversion E; subst.
  destruct (fold_left_max_spec r y) as (_ & Hy & Hr). simpl in *.
  destruct Hx as [<-|Hx]; auto.
Qed.

Lemma max_of_none (l : list Z) : max_of l = None -> l = [].
Proof. destruct l; [reflexivity|discriminate]. Qed.

(** The default position lies above every column of the scope. *)
Lemma stored_position_above req (cols : list CustomColumn) c :
  req_position req = None -> In c cols -> in_scope req c = true ->
  cc_position c < stored_position req cols.
Proof.
  intros Hpos Hin Hsc. unfold stored_position. rewrite Hpos.
  assert (In (cc_position c) (map cc_position (filter (in_scope req) cols))) as Hc.
  { apply in_map. apply filter_In. now split. }
  destruct (max_of _) as [m|] eqn:E.
  - pose proof (max_of_bounds _ _ _ E Hc). lia.
  - apply max_of_none in E. rewrite E in Hc. destruct Hc.
Qed.

Lemma listed_own_column req position id :
  listed (req_workspaceId req) (req_projectId req) (req_workflowId req)
    (documentData req position id) = true.
Proof.
  unfold listed, documentData. simpl. rewrite String.eqb_refl. simpl.
  destruct (req_projectId req) as [p|], (req_workflowId req) as [w|]; simpl;
    repeat match goal with
           | |- context [String.eqb ?x ""] => destruct (String.eqb x "") eqn:?; simpl
           end;
    rewrite ?String.eqb_refl; reflexivity.
Qed.

Lemma app_post_after_write oracle req s col s1 :
  create_column oracle req s = (Ok col, s1) ->
  exists s2, app_post oracle req s = (Ok col, s2) /\ columns s2 = columns s1.
Proof.
  intros E.
  pose proof (never_throws_tt _ s1 (sync_status_never_throws oracle req)) as Hn.
  pose proof (sync_status_keeps_columns oracle req s1) as Kc.
  unfold app_post. rewrite (bind_ok _ _ _ _ _ E). unfold bind.
  destruct (sync_status oracle req s1) as [[[]|e] s2]; simpl in *; [|discriminate].
  now exists s2.
Qed.

(** X14. After a create without a position, a listing of the scope of the
    request is the listing from before the create followed by the new
    column: the default position puts the column last. *)
Theorem created_column_is_listed_last
  (oracle oracle' : nat -> Op -> option Exception) (req : CreateCustomColumn)
  (s : Store) :
  req_position req = None ->
  reliable_on oracle CUSTOM_COLUMNS_ID ->
  reliable_on oracle' CUSTOM_COLUMNS_ID ->
  exists col s1 before after s0' s1',
    app_post oracle req s = (Ok col, s1) /\
    app_get oracle' (req_workspaceId req) (req_projectId req) (req_workflowId req) s
      = (Ok before, s0') /\
    app_get oracle' (req_workspaceId req) (req_projectId req) (req_workflowId req) s1
      = (Ok after, s1') /\
    documents after = documents before ++ [col].
Proof.
  intros Hpos Hrel Hrel'.
  destruct (create_column_reliable oracle req s Hrel)
    as (s1 & ops1 & E & Kcol & _).
  destruct (app_post_after_write oracle req s _ s1 E) as (s2 & Epost & Kc).
  destruct (app_get_reliable oracle' (req_workspaceId req) (req_projectId req)
              (req_workflowId req) s Hrel') as (before & s0' & G0 & D0).
  destruct (app_get_reliable oracle' (req_workspaceId req) (req_projectId req)
              (req_workflowId req) s2 Hrel') as (after & s1' & G1 & D1).
  eexists _, s2, before, after, s0', s1'. split; [exact Epost|].
  split; [exact G0|]. split; [exact G1|].
  rewrite D0, D1, Kc, Kcol, filter_app. simpl.
  rewrite listed_own_column.
  apply (order_by_last "position").
  intros x Hx. apply filter_In in Hx. destruct Hx as [Hin Hl].
  apply (stored_position_above req (columns s) x Hpos Hin). exact Hl.
Qed.

Lemma created_column_is_listed_last_witness :
  exists col s1 before after s0' s1',
    app_post no_fault Board.in_review Board.store = (Ok col, s1) /\
    app_get no_fault "ws1" (Some "p1") None Board.store = (Ok before, s0') /\
    app_get no_fault "ws1" (Some "p1") None s1 = (Ok after, s1') /\
    documents after = documents before ++ [col].
Proof.
  apply (created_column_is_listed_last no_fault no_fault Board.in_review Board.store).
  - reflexivity.
  - intros n op E. reflexivity.
  - intros n op E. reflexivity.
Defined.

Lemma app_post_with_existing oracle req s project status :
  find_doc (the (req_projectId req)) (projects s) = Some project ->
  In status (statuses s) ->
  matching_status (the (pr_workflowId project)) (req_name req) status = true ->
  statuses (snd (app_post oracle req s)) = statuses s.
Proof.
  intros Hfind Hin Hm. unfold app_post, bind.
  pose proof (column_write_keeps_statuses oracle req s) as Ks.
  pose proof (column_write_keeps_projects oracle req s) as Kp.
  destruct (create_column oracle req s) as [[col|e] s1]; simpl in *; [|exact Ks].
  rewrite <- Ks in Hin. rewrite <- Kp in Hfind.
  pose proof (sync_status_with_existing oracle req s1 project status Hfind Hin Hm) as K.
  destruct (sync_status oracle req s1) as [[[]|e] s2]; simpl in *; congruence.
Qed.

Lemma app_post_creates oracle req s project :
  reliable oracle ->
  Js.truthy (req_projectId req) = true ->
  Js.truthy (req_workflowId req) = false ->
  find_doc (the (req_projectId req)) (projects s) = Some project ->
  Js.truthy (pr_workflowId project) = true ->
  (forall st, In st (statuses s) ->
     matching_status (the (pr_workflowId project)) (req_name req) st = false) ->
  exists s' position id,
    app_post oracle req s
      = (Ok (documentData req (stored_position req (columns s)) (unique_id (fresh s))),
         s') /\
    columns s'
      = columns s
        ++ [documentData req (stored_position req (columns s)) (unique_id (fresh s))] /\
    projects s' = projects s /\
    transitions s' = transitions s /\
    statuses s' = statuses s ++
      [statusData (the (pr_workflowId project)) (req_name req)
         (Js.normalizedKey (req_name req)) (req_icon req) (req_color req)
         position id] /\
    id = unique_id (S (fresh s)).
Proof.
  intros Hrel Hp Hw Hfind Hpw Hnone.
  destruct (create_column_reliable oracle req s) as
    (s1 & ops1 & E & Kcol & Kp & Ks & Kt & _ & Kf & _); [intros n op _; apply Hrel|].
  assert (exists s' position,
             sync_status oracle req s1 = (Ok tt, s') /\
             columns s' = columns s1 /\ projects s' = projects s1 /\
             transitions s' = transitions s1 /\
             statuses s' = statuses s1 ++
               [statusData (the (pr_workflowId project)) (req_name req)
                  (Js.normalizedKey (req_name req)) (req_icon req) (req_color req)
                  position (unique_id (fresh s1))]) as (s' & position & Es & Sc & Sp & St & Ss).
  { unfold sync_status. rewrite Hp, Hw. simpl.
    unfold try_catch, sync_status_body, bind.
    rewrite get_project_run, Hrel, Kp, Hfind, Hpw.
    rewrite list_statuses_run, Hrel, status_total.
    change (statuses (record_op (OpGet PROJECTS_ID (the (req_projectId req))) s1))
      with (statuses s1).
    rewrite Ks, (filter_none _ _ Hnone). simpl.
    rewrite list_statuses_run, Hrel.
    unfold ID_unique. rewrite create_status_doc_run, Hrel.
    eexists _, _. split; [reflexivity|].
    repeat split; simpl; rewrite ?Kp, ?Ks; reflexivity. }
  exists s', position, (unique_id (S (fresh s))).
  unfold app_post. rewrite (bind_ok _ _ _ _ _ E), (bind_ok _ _ _ _ _ Es).
  split; [reflexivity|]. rewrite Sc, Sp, St, Ss, Ks, Kf. repeat split; assumption.
Qed.



(** ** Deletion: what a delete leaves alone *)

Section CascadeFrame.
Variable oracle : nat -> Op -> option Exception.

Lemma shrinks_within_same ks kt s s' :
  statuses s' = statuses s -> transitions s' = transitions s ->
  shrinks_within ks kt s s'.
Proof. intros Es Et. unfold shrinks_within. rewrite Es, Et. repeat split; auto. Qed.

Lemma shrinks_within_refl ks kt s : shrinks_within ks kt s s.
Proof. now apply shrinks_within_same. Qed.

Ltac same_store := apply shrinks_within_same; reflexivity.

Lemma shrinks_within_trans (ks ks' ks'' kt kt' kt'' : _ -> Prop) s s1 s2 :
  shrinks_within ks kt s s1 -> shrinks_within ks' kt' s1 s2 ->
  (forall st, ks'' st -> ks st /\ ks' st) ->
  (forall t, kt'' t -> kt t /\ kt' t) ->
  shrinks_within ks'' kt'' s s2.
Proof.
  intros (A1 & A2 & A3 & A4) (B1 & B2 & B3 & B4) Hs Ht. repeat split.
  - auto.
  - intros st Hin K. destruct (Hs st K). auto.
  - auto.
  - intros t Hin K. destruct (Ht t K). auto.
Qed.

Lemma delete_transition_frame t s :
  shrinks_within (fun _ => True) (fun t0 => wt_id t0 <> wt_id t)
    s (snd (delete_transition oracle t s)).
Proof.
  unfold delete_transition, try_catch. rewrite delete_transition_run.
  destruct (oracle _ _); [same_store|].
  destruct (existsb _ _); [|same_store].
  simpl. repeat split; simpl; auto.
  - intros t0 H0. apply remove_doc_In in H0. tauto.
  - intros t0 H0 N. apply remove_doc_In. now split.
Qed.

Lemma delete_transitions_frame l : forall s,
  shrinks_within (fun _ => True) (fun t0 => ~ In (wt_id t0) (map wt_id l))
    s (snd (for_of l (delete_transition oracle) s)).
Proof.
  induction l as [|t r IH]; intros s; simpl; [same_store|].
  unfold bind. pose proof (delete_transition_frame t s) as F1.
  destruct (delete_transition_tolerant oracle t s) as (s1 & E & _).
  rewrite E in *. simpl in *.
  eapply shrinks_within_trans; [exact F1|apply IH| |]; simpl.
  - auto.
  - intros t0 N. split; intros H; apply N; auto.
Qed.

Lemma delete_status_frame st s :
  shrinks_within (fun st0 => ws_id st0 <> ws_id st) (fun _ => True)
    s (snd (delete_status oracle st s)).
Proof.
  unfold delete_status, try_catch. rewrite delete_status_run.
  destruct (oracle _ _); [same_store|].
  destruct (existsb _ _); [|same_store].
  simpl. repeat split; simpl; auto.
  - intros t0 H0. apply remove_doc_In in H0. tauto.
  - intros t0 H0 N. apply remove_doc_In. now split.
Qed.

Lemma cascade_status_frame workflowId x s :
  shrinks_within (fun st0 => ws_id st0 <> ws_id x)
    (fun t0 => forall t', In t' (transitions s) ->
                 related_transition workflowId (ws_id x) t' = true ->
                 wt_id t' <> wt_id t0)
    s (snd (cascade_status oracle workflowId x s)).
Proof.
  unfold cascade_status, bind. rewrite list_transitions_run.
  destruct (oracle _ _); [same_store|].
  fold (transition_queries workflowId (ws_id x)). rewrite related_documents.
  set (s0 := record_op _ s).
  pose proof (delete_transitions_frame
                (filter (related_transition workflowId (ws_id x)) (transitions s)) s0)
    as F1.
  destruct (delete_transitions_tolerant oracle
              (filter (related_transition workflowId (ws_id x)) (transitions s)) s0)
    as (s1 & E & _).
  rewrite E in *. simpl in F1.
  pose proof (delete_status_frame x s1) as F2.
  eapply (shrinks_within_trans _ _ _ _ _ _ s0 s1); [exact F1|exact F2| |]; simpl.
  - auto.
  - intros t0 K. split; [|exact I]. intros Hin.
    apply in_map_iff in Hin. destruct Hin as (t' & Eid & Ht').
    apply filter_In in Ht'. destruct Ht' as [Hin' Hr]. now apply (K t').
Qed.

Lemma cascade_frame workflowId l : forall s,
  shrinks_within (fun st0 => ~ In (ws_id st0) (map ws_id l))
    (fun t0 => forall x t', In x l -> In t' (transitions s) ->
                 related_transition workflowId (ws_id x) t' = true ->
                 wt_id t' <> wt_id t0)
    s (snd (for_of l (cascade_status oracle workflowId) s)).
Proof.
  induction l as [|x r IH]; intros s; simpl; [same_store|].
  unfold bind. pose proof (cascade_status_frame workflowId x s) as F1.
  destruct (cascade_status oracle workflowId x s) as [[[]|e] s1]; simpl in *.
  - eapply shrinks_within_trans; [exact F1|apply IH| |]; simpl.
    + intros st0 N. split; intros H; apply N; auto.
    + intros t0 K. split.
      * intros t' Ht'. apply K; auto.
      * intros y t' Hy Ht'. apply K; auto. destruct F1 as (_ & _ & F3 & _). auto.
  - eapply shrinks_within_trans; [exact F1|apply shrinks_within_refl| |]; simpl.
    + intros st0 N. split; [|exact I]. intros H; apply N; auto.
    + intros t0 K. split; [|exact I]. intros t' Ht'. apply K; auto.
Qed.

(** The synchronization step of a delete, on a store where the project is
    found. *)
Lemma cleanup_status_frame columnName columnProjectId s project :
  find_doc (the columnProjectId) (projects s) = Some project ->
  shrinks_within
    (spared_status (the (pr_workflowId project)) (the columnName) (statuses s))
    (spared_transition (the (pr_workflowId project)) (the columnName) (statuses s)
       (transitions s))
    s (snd (cleanup_status oracle columnName columnProjectId s)).
Proof.
  intros Hfind. unfold cleanup_status.
  destruct (Js.truthy columnName && Js.truthy columnProjectId);
    [|same_store].
  set (name := the columnName) in *. set (projectId := the columnProjectId) in *.
  assert (shrinks_within
            (spared_status (the (pr_workflowId project)) name (statuses s))
            (spared_transition (the (pr_workflowId project)) name (statuses s)
               (transitions s))
            s (snd (cleanup_body oracle name projectId s))) as F.
  { unfold cleanup_body, bind. rewrite get_project_run.
    destruct (oracle _ _); [same_store|].
    rewrite Hfind.
    destruct (Js.truthy (pr_workflowId project)); [|same_store].
    rewrite list_statuses_run.
    destruct (oracle _ _); [same_store|].
    fold (status_queries (the (pr_workflowId project)) name).
    rewrite matching_documents.
    set (s0 := record_op _ (record_op _ s)).
    pose proof (cascade_frame (the (pr_workflowId project))
                  (filter (matching_status (the (pr_workflowId project)) name)
                     (statuses s)) s0) as F.
    destruct F as (F1 & F2 & F3 & F4). repeat split; auto.
    - intros st Hin K. apply F2; [exact Hin|].
      intros Hid. apply in_map_iff in Hid. destruct Hid as (m & Eid & Hm).
      apply filter_In in Hm. destruct Hm as [Hm1 Hm2]. now apply (K m).
    - intros t Hin K. apply F4; [exact Hin|].
      intros x t' Hx Ht' Hr. apply filter_In in Hx. destruct Hx as [Hx1 Hx2].
      now apply (K x t'). }
  unfold try_catch.
  destruct (cleanup_body oracle name projectId s) as [[[]|e] s1]; exact F.
Qed.

End CascadeFrame.

(** The removal of the column itself, whatever the store does: two calls,
    no effect outside the column collection, and the column is gone exactly
    when the step succeeds. *)
Lemma remove_column_outcomes oracle customColumnId s :
  let r := remove_column oracle customColumnId s in
  projects (snd r) = projects s /\ statuses (snd r) = statuses s /\
  transitions (snd r) = transitions s /\ console (snd r) = console s /\
  log (snd r) = log s ++ [OpGet CUSTOM_COLUMNS_ID customColumnId;
                          OpDelete CUSTOM_COLUMNS_ID customColumnId] /\
  ((exists e, fst r = Throw e /\ columns (snd r) = columns s /\
      (existsb (has_id customColumnId) (columns s) = false ->
       oracle (S (List.length (log s))) (OpDelete CUSTOM_COLUMNS_ID customColumnId)
         = None -> e = NotFound)) \/
   (exists pre, fst r = Ok pre /\
      columns (snd r) = remove_doc customColumnId (columns s) /\
      existsb (has_id customColumnId) (columns s) = true /\
      oracle (S (List.length (log s))) (OpDelete CUSTOM_COLUMNS_ID customColumnId)
        = None /\
      ((pre = (None, None) /\
        oracle (List.length (log s)) (OpGet CUSTOM_COLUMNS_ID customColumnId) <> None) \/
       (exists c, find_doc customColumnId (columns s) = Some c /\
          pre = (Some (cc_name c), cc_projectId c) /\
          oracle (List.length (log s)) (OpGet CUSTOM_COLUMNS_ID customColumnId)
            = None)))).
Proof.
  assert (List.length (log (record_op (OpGet CUSTOM_COLUMNS_ID customColumnId) s))
          = S (List.length (log s))) as Hlen.
  { simpl. rewrite length_app. simpl. lia. }
  assert (existsb (has_id customColumnId) (columns s) = true ->
          find_doc customColumnId (columns s) <> None) as Hsome.
  { intros Hex Hnone. apply existsb_exists in Hex. destruct Hex as (c & Hc & Hid).
    unfold find_doc in Hnone. now rewrite (find_none _ _ Hnone c Hc) in Hid. }
  simpl. unfold remove_column, read_column, try_catch, bind.
  rewrite get_column_run.
  destruct (oracle (List.length (log s)) _) as [e0|] eqn:Eget;
    [|destruct (find_doc customColumnId (columns s)) as [c|] eqn:Efind];
    unfold ret; cbv beta iota; rewrite delete_column_run, Hlen;
    change (columns (record_op (OpGet CUSTOM_COLUMNS_ID customColumnId) s))
      with (columns s);
    (destruct (oracle (S (List.length (log s))) _) as [e1|] eqn:Edel;
     [|destruct (existsb (has_id customColumnId) (columns s)) eqn:Eex]);
    simpl; rewrite <- ?app_assoc; simpl;
    (repeat (split; [reflexivity|])).
  - left. eexists. repeat split. congruence.
  - right. eexists. repeat split. left. split; [reflexivity|congruence].
  - left. eexists. repeat split.
  - left. eexists. repeat split. congruence.
  - right. eexists. repeat split. right. exists c. repeat split.
  - left. eexists. repeat split.
  - left. eexists. repeat split. congruence.
  - exfalso. now apply Hsome.
  - left. eexists. repeat split.
Qed.

Lemma app_delete_unfold oracle customColumnId s :
  app_delete oracle customColumnId s =
  match remove_column oracle customColumnId s with
  | (Ok pre, s1) =>
      (Ok customColumnId, snd (cleanup_status oracle (fst pre) (snd pre) s1))
  | (Throw e, s1) => (Throw e, s1)
  end.
Proof.
  unfold app_delete, bind.
  destruct (remove_column oracle customColumnId s) as [[pre|e] s1]; [|reflexivity].
  pose proof (never_throws_tt _ s1
                (cleanup_status_never_throws oracle (fst pre) (snd pre))) as Hn.
  destruct (cleanup_status oracle (fst pre) (snd pre) s1) as [[[]|e] s2];
    simpl in *; [reflexivity|discriminate].
Qed.

Lemma app_delete_frame
  (oracle : nat -> Op -> option Exception) (customColumnId : string) (s : Store)
  (column : CustomColumn) (project : Project) :
  find_doc customColumnId (columns s) = Some column ->
  find_doc (the (cc_projectId column)) (projects s) = Some project ->
  let workflowId := the (pr_workflowId project) in
  let s' := snd (app_delete oracle customColumnId s) in
  (forall c, In c (columns s') -> In c (columns s)) /\
  (forall c, In c (columns s) -> cc_id c <> customColumnId -> In c (columns s')) /\
  projects s' = projects s /\
  shrinks_within
    (spared_status workflowId (cc_name column) (statuses s))
    (spared_transition workflowId (cc_name column) (statuses s) (transitions s))
    s s'.
Proof.
  intros Hcol Hproj. simpl. rewrite app_delete_unfold.
  destruct (remove_column_outcomes oracle customColumnId s)
    as (Kp & Ks & Kt & _ & _ & [(e & Er & Kc & _)|(pre & Er & Kc & _ & _ & Hpre)]).
  - destruct (remove_column oracle customColumnId s) as [[pre|e'] s1];
      simpl in *; [discriminate|].
    rewrite Kc. split; [auto|]. split; [auto|]. split; [auto|].
    now apply shrinks_within_same.
  - destruct (remove_column oracle customColumnId s) as [[pre'|e'] s1];
      simpl in *; [|discriminate].
    inversion Er; subst pre'. clear Er.
    rewrite (cleanup_status_keeps_columns oracle (fst pre) (snd pre) s1),
      (cleanup_status_keeps_projects oracle (fst pre) (snd pre) s1), Kc.
    split; [intros c Hc; apply remove_doc_In in Hc; tauto|].
    split; [intros c Hc N; apply remove_doc_In; now split|].
    split; [exact Kp|].
    destruct Hpre as [[-> _]|(c & Hc & -> & _)].
    + now apply shrinks_within_same.
    + rewrite Hcol in Hc. inversion Hc; subst c. simpl fst. simpl snd.
      pose proof (cleanup_status_frame oracle (Some (cc_name column))
                    (cc_projectId column) s1 project) as F.
      rewrite Kp in F. specialize (F Hproj).
      unfold shrinks_within in *. rewrite Ks, Kt in F. exact F.
Qed.




Lemma app_delete_absent
  (oracle : nat -> Op -> option Exception) (customColumnId : string) (s : Store) :
  find_doc customColumnId (columns s) = None ->
  let r := app_delete oracle customColumnId s in
  (exists e, fst r = Throw e /\
     (oracle (S (List.length (log s))) (OpDelete CUSTOM_COLUMNS_ID customColumnId)
        = None -> e = NotFound)) /\
  log (snd r) = log s ++ [OpGet CUSTOM_COLUMNS_ID customColumnId;
                          OpDelete CUSTOM_COLUMNS_ID customColumnId] /\
  columns (snd r) = columns s /\ projects (snd r) = projects s /\
  statuses (snd r) = statuses s /\ transitions (snd r) = transitions s /\
  console (snd r) = console s.
Proof.
  intros Habs. simpl. rewrite app_delete_unfold.
  assert (existsb (has_id customColumnId) (columns s) = false) as Hex.
  { destruct (existsb (has_id customColumnId) (columns s)) eqn:E; [|reflexivity].
    apply existsb_exists in E. destruct E as (c & Hc & Hid).
    unfold find_doc in Habs. now rewrite (find_none _ _ Habs c Hc) in Hid. }
  destruct (remove_column_outcomes oracle customColumnId s)
    as (Kp & Ks & Kt & Kcon & Kl & [(e & Er & Kc & Hnf)|(pre & _ & _ & Hex' & _)]);
    [|congruence].
  destruct (remove_column oracle customColumnId s) as [[pre|e'] s1];
    simpl in *; [discriminate|].
  inversion Er; subst e'. repeat split; auto. exists e. split; auto.
Qed.


(** X17. Deleting a column that is not in the store throws, whatever the
    store does, and not-found when the store itself answers the removal;
    the request issues the read and the removal of the column and nothing
    else, and every collection and the console stay as they were. *)
Theorem delete_of_absent_column
  (oracle : nat -> Op -> option Exception) (customColumnId : string) (s : Store) :
  find_doc customColumnId (columns s) = None ->
  let r := app_delete oracle customColumnId s in
  (exists e, fst r = Throw e /\
     (oracle (S (List.length (log s))) (OpDelete CUSTOM_COLUMNS_ID customColumnId)
        = None -> e = NotFound)) /\
  log (snd r) = log s ++ [OpGet CUSTOM_COLUMNS_ID customColumnId;
                          OpDelete CUSTOM_COLUMNS_ID customColumnId] /\
  columns (snd r) = columns s /\ projects (snd r) = projects s /\
  statuses (snd r) = statuses s /\ transitions (snd r) = transitions s /\
  console (snd r) = console s.
Proof.
  intros Habs. exact (app_delete_absent oracle _ _ Habs).
Qed.

Lemma delete_of_absent_column_witness :
  let r := app_delete Board.projects_down "c_nowhere" Board.store in
  (exists e, fst r = Throw e /\
     (Board.projects_down (S (List.length (log Board.store)))
        (OpDelete CUSTOM_COLUMNS_ID "c_nowhere") = None -> e = NotFound)) /\
  log (snd r) = log Board.store ++ [OpGet CUSTOM_COLUMNS_ID "c_nowhere";
                                    OpDelete CUSTOM_COLUMNS_ID "c_nowhere"] /\
  columns (snd r) = columns Board.store /\ projects (snd r) = projects Board.store /\
  statuses (snd r) = statuses Board.store /\
  transitions (snd r) = transitions Board.store /\
  console (snd r) = console Board.store.
Proof.
  apply (delete_of_absent_column Board.projects_down "c_nowhere" Board.store).
  reflexivity.
Defined.

(** X18. When the read of the column before its removal fails, the column
    is removed all the same, but its name and project stay unknown and the
    cascade is skipped: the request acknowledges the id, issues no call
    beyond the read and the removal, and leaves statuses and transitions in
    place, matching ones included. *)
Theorem failed_read_skips_cascade
  (oracle : nat -> Op -> option Exception) (customColumnId : string) (s : Store) :
  oracle (List.length (log s)) (OpGet CUSTOM_COLUMNS_ID customColumnId) <> None ->
  oracle (S (List.length (log s))) (OpDelete CUSTOM_COLUMNS_ID customColumnId) = None ->
  existsb (has_id customColumnId) (columns s) = true ->
  let r := app_delete oracle customColumnId s in
  fst r = Ok customColumnId /\
  columns (snd r) = remove_doc customColumnId (columns s) /\
  log (snd r) = log s ++ [OpGet CUSTOM_COLUMNS_ID customColumnId;
                          OpDelete CUSTOM_COLUMNS_ID customColumnId] /\
  statuses (snd r) = statuses s /\ transitions (snd r) = transitions s.
Proof.
  intros Hget Hdel Hex. simpl. rewrite app_delete_unfold.
  destruct (remove_column_outcomes oracle customColumnId s)
    as (Kp & Ks & Kt & Kcon & Kl & [(e & Er & Kc & _)|(pre & Er & Kc & _ & _ & Hpre)]).
  - exfalso. revert Er. unfold remove_column, read_column, try_catch, bind.
    rewrite get_column_run.
    destruct (oracle (List.length (log s)) _) as [e0|]; [|congruence].
    unfold ret. cbv beta iota. rewrite delete_column_run.
    replace (List.length (log (record_op (OpGet CUSTOM_COLUMNS_ID customColumnId) s)))
      with (S (List.length (log s))) by (simpl; rewrite length_app; simpl; lia).
    rewrite Hdel.
    change (columns (record_op (OpGet CUSTOM_COLUMNS_ID customColumnId) s))
      with (columns s).
    rewrite Hex. discriminate.
  - destruct (remove_column oracle customColumnId s) as [[pre'|e'] s1];
      simpl in *; [|discriminate].
    inversion Er; subst pre'.
    destruct Hpre as [[-> _]|(c & _ & _ & Hno)]; [|congruence].
    simpl. repeat split; auto.
Qed.

Lemma failed_read_skips_cascade_witness :
  let r := app_delete column_read_down "c_done" Board.store in
  fst r = Ok "c_done" /\
  columns (snd r) = remove_doc "c_done" (columns Board.store) /\
  log (snd r) = log Board.store ++ [OpGet CUSTOM_COLUMNS_ID "c_done";
                                    OpDelete CUSTOM_COLUMNS_ID "c_done"] /\
  statuses (snd r) = statuses Board.store /\
  transitions (snd r) = transitions Board.store.
Proof.
  apply (failed_read_skips_cascade column_read_down "c_done" Board.store).
  - discriminate.
  - reflexivity.
  - reflexivity.
Defined.

(** X19. A column without a project link - a workspace column or a
    standalone workflow column - or with an empty name is deleted without a
    cascade, whatever the store does: the request issues the read and the
    removal of the column and nothing else, and statuses, transitions and
    console stay as they were. *)
Theorem delete_without_project_skips_cascade
  (oracle : nat -> Op -> option Exception) (customColumnId : string) (s : Store)
  (column : CustomColumn) :
  find_doc customColumnId (columns s) = Some column ->
  Js.truthy (Some (cc_name column)) && Js.truthy (cc_projectId column) = false ->
  let r := app_delete oracle customColumnId s in
  log (snd r) = log s ++ [OpGet CUSTOM_COLUMNS_ID customColumnId;
                          OpDelete CUSTOM_COLUMNS_ID customColumnId] /\
  statuses (snd r) = statuses s /\ transitions (snd r) = transitions s /\
  console (snd r) = console s.
Proof.
  intros Hcol Hguard. simpl. rewrite app_delete_unfold.
  destruct (remove_column_outcomes oracle customColumnId s)
    as (Kp & Ks & Kt & Kcon & Kl & [(e & Er & Kc & _)|(pre & Er & Kc & _ & _ & Hpre)]).
  - destruct (remove_column oracle customColumnId s) as [[pre|e'] s1];
      simpl in *; [discriminate|]. auto.
  - destruct (remove_column oracle customColumnId s) as [[pre'|e'] s1];
      simpl in *; [|discriminate].
    inversion Er; subst pre'.
    destruct Hpre as [[-> _]|(c & Hc & -> & _)]; [simpl; auto|].
    rewrite Hcol in Hc. inversion Hc; subst c.
    unfold cleanup_status. simpl fst. simpl snd. rewrite Hguard. simpl. auto.
Qed.

Lemma delete_without_project_skips_cascade_witness :
  let s := {| columns := [{| cc_id := "c_w"; cc_name := "Done";
                             cc_workspaceId := "ws1"; cc_projectId := None;
                             cc_workflowId := Some "w1"; cc_icon := None;
                             cc_color := None; cc_position := 1000 |}];
              projects := [Board.project]; statuses := [Board.todo; Board.done];
              transitions := [Board.finish]; log := []; console := [];
              fresh := 0 |} in
  let r := app_delete no_fault "c_w" s in
  log (snd r) = log s ++ [OpGet CUSTOM_COLUMNS_ID "c_w";
                          OpDelete CUSTOM_COLUMNS_ID "c_w"] /\
  statuses (snd r) = statuses s /\ transitions (snd r) = transitions s /\
  console (snd r) = console s.
Proof.
  apply (delete_without_project_skips_cascade no_fault "c_w"
           {| columns := [{| cc_id := "c_w"; cc_name := "Done";
                             cc_workspaceId := "ws1"; cc_projectId := None;
                             cc_workflowId := Some "w1"; cc_icon := None;
                             cc_color := None; cc_position := 1000 |}];
              projects := [Board.project]; statuses := [Board.todo; Board.done];
              transitions := [Board.finish]; log := []; console := [];
              fresh := 0 |}
           {| cc_id := "c_w"; cc_name := "Done";
              cc_workspaceId := "ws1"; cc_projectId := None;
              cc_workflowId := Some "w1"; cc_icon := None;
              cc_color := None; cc_position := 1000 |}).
  - reflexivity.
  - reflexivity.
Defined.

(** The removal of a column that is found, when the column calls go
    through. *)
Lemma remove_column_found oracle customColumnId s column :
  reliable_on oracle CUSTOM_COLUMNS_ID ->
  find_doc customColumnId (columns s) = Some column ->
  remove_column oracle customColumnId s =
  (Ok (Some (cc_name column), cc_projectId column),
   set_columns (remove_doc customColumnId (columns s))
     (record_op (OpDelete CUSTOM_COLUMNS_ID customColumnId)
        (record_op (OpGet CUSTOM_COLUMNS_ID customColumnId) s))).
Proof.
  intros Hrel Hcol.
  assert (existsb (has_id customColumnId) (columns s) = true) as Hex.
  { apply existsb_exists. unfold find_doc in Hcol.
    apply find_some in Hcol. exists column. exact Hcol. }
  unfold remove_column, read_column, try_catch, bind.
  rewrite get_column_run, Hrel, Hcol by reflexivity. unfold ret. cbv beta iota.
  rewrite delete_column_run, Hrel by reflexivity.
  change (columns (record_op (OpGet CUSTOM_COLUMNS_ID customColumnId) s))
    with (columns s).
  now rewrite Hex.
Qed.

(** X20. Deleting a column of a project that is linked to no workflow: when
    the column and project calls go through, the request acknowledges the
    id, the project lookup is its last call, statuses and transitions stay
    as they were and nothing is written to the console. *)
Theorem delete_for_project_without_workflow
  (oracle : nat -> Op -> option Exception) (customColumnId : string) (s : Store)
  (column : CustomColumn) (project : Project) :
  reliable_on oracle CUSTOM_COLUMNS_ID ->
  reliable_on oracle PROJECTS_ID ->
  find_doc customColumnId (columns s) = Some column ->
  Js.truthy (Some (cc_name column)) = true ->
  Js.truthy (cc_projectId column) = true ->
  find_doc (the (cc_projectId column)) (projects s) = Some project ->
  Js.truthy (pr_workflowId project) = false ->
  let r := app_delete oracle customColumnId s in
  fst r = Ok customColumnId /\
  log (snd r) = log s ++ [OpGet CUSTOM_COLUMNS_ID customColumnId;
                          OpDelete CUSTOM_COLUMNS_ID customColumnId;
                          OpGet PROJECTS_ID (the (cc_projectId column))] /\
  statuses (snd r) = statuses s /\ transitions (snd r) = transitions s /\
  console (snd r) = console s.
Proof.
  intros Hc Hp Hcol Hname Hpid Hproj Hwf. simpl.
  rewrite app_delete_unfold, (remove_column_found oracle _ _ _ Hc Hcol).
  simpl fst. simpl snd. unfold cleanup_status. rewrite Hname, Hpid.
  change (true && true) with true.
  unfold try_catch, cleanup_body, bind. cbv beta iota.
  rewrite get_project_run, Hp by reflexivity. simpl projects. rewrite Hproj, Hwf.
  simpl. rewrite <- !app_assoc. repeat split.
Qed.

Lemma delete_for_project_without_workflow_witness :
  let s := {| columns := [Board.done_column];
              projects := [{| pr_id := "p1"; pr_workflowId := None |}];
              statuses := [Board.todo; Board.done];
              transitions := [Board.finish]; log := []; console := [];
              fresh := 0 |} in
  let r := app_delete no_fault "c_done" s in
  fst r = Ok "c_done" /\
  log (snd r) = log s ++ [OpGet CUSTOM_COLUMNS_ID "c_done";
                          OpDelete CUSTOM_COLUMNS_ID "c_done";
                          OpGet PROJECTS_ID "p1"] /\
  statuses (snd r) = statuses s /\ transitions (snd r) = transitions s /\
  console (snd r) = console s.
Proof.
  apply (delete_for_project_without_workflow no_fault "c_done"
           {| columns := [Board.done_column];
              projects := [{| pr_id := "p1"; pr_workflowId := None |}];
              statuses := [Board.todo; Board.done];
              transitions := [Board.finish]; log := []; console := [];
              fresh := 0 |}
           Board.done_column {| pr_id := "p1"; pr_workflowId := None |}).
  - intros n op E. reflexivity.
  - intros n op E. reflexivity.
  - reflexivity.
  - reflexivity.
  - reflexivity.
  - reflexivity.
  - reflexivity.
Defined.

(** X21. Deleting a project column whose project is not in the store: when
    the column calls go through, the request acknowledges the id and the
    column is removed; the failed lookup is caught, one line is written to
    the console, and statuses and transitions stay as they were. *)
Theorem delete_for_missing_project
  (oracle : nat -> Op -> option Exception) (customColumnId : string) (s : Store)
  (column : CustomColumn) :
  reliable_on oracle CUSTOM_COLUMNS_ID ->
  find_doc customColumnId (columns s) = Some column ->
  Js.truthy (Some (cc_name column)) = true ->
  Js.truthy (cc_projectId column) = true ->
  find_doc (the (cc_projectId column)) (projects s) = None ->
  let r := app_delete oracle customColumnId s in
  fst r = Ok customColumnId /\
  columns (snd r) = remove_doc customColumnId (columns s) /\
  statuses (snd r) = statuses s /\ transitions (snd r) = transitions s /\
  console (snd r)
    = console s ++ ["Error cleaning up workflow status after column delete:"].
Proof.
  intros Hc Hcol Hname Hpid Hproj. simpl.
  rewrite app_delete_unfold, (remove_column_found oracle _ _ _ Hc Hcol).
  simpl fst. simpl snd. unfold cleanup_status. rewrite Hname, Hpid.
  change (true && true) with true.
  unfold try_catch, cleanup_body, bind. cbv beta iota.
  rewrite get_project_run. simpl projects. rewrite Hproj.
  destruct (oracle _ _); simpl; repeat split.
Qed.

Lemma delete_for_missing_project_witness :
  let r := app_delete no_fault "c_else" Board.store in
  fst r = Ok "c_else" /\
  columns (snd r) = remove_doc "c_else" (columns Board.store) /\
  statuses (snd r) = statuses Board.store /\
  transitions (snd r) = transitions Board.store /\
  console (snd r)
    = console Board.store
      ++ ["Error cleaning up workflow status after column delete:"].
Proof.
  apply (delete_for_missing_project no_fault "c_else" Board.store
           Board.elsewhere_column).
  - intros n op E. reflexivity.
  - reflexivity.
  - reflexivity.
  - reflexivity.
  - reflexivity.
Defined.



(** ** Creation and deletion together *)

Lemma remove_doc_app {D} `{Document D} id (l1 l2 : list D) :
  remove_doc id (l1 ++ l2) = remove_doc id l1 ++ remove_doc id l2.
Proof. unfold remove_doc. apply filter_app. Qed.

Lemma find_doc_app_absent {D} `{Document D} id (l : list D) (d : D) :
  existsb (has_id id) l = false -> doc_id d = id ->
  find_doc id (l ++ [d]) = Some d.
Proof.
  intros Habs Hid. unfold find_doc.
  induction l as [|x r IH]; simpl in *.
  - unfold has_id. now rewrite Hid, String.eqb_refl.
  - apply orb_false_iff in Habs. destruct Habs as [Hx Hr]. rewrite Hx. now apply IH.
Qed.

Lemma find_doc_removed {D} `{Document D} id (l : list D) :
  find_doc id (remove_doc id l) = None.
Proof.
  unfold find_doc, remove_doc. induction l as [|x r IH]; simpl; [reflexivity|].
  destruct (has_id id x) eqn:E; simpl; [exact IH|]. now rewrite E.
Qed.



(** X24. A delete that succeeded is final: whatever the store did during
    it, the column is gone, so a second delete of the same id throws and
    leaves columns, statuses, transitions and console as the first delete
    left them. *)
Theorem second_delete_throws
  (oracle oracle' : nat -> Op -> option Exception) (customColumnId : string)
  (s : Store) :
  fst (app_delete oracle customColumnId s) = Ok customColumnId ->
  let s1 := snd (app_delete oracle customColumnId s) in
  let r := app_delete oracle' customColumnId s1 in
  find_doc customColumnId (columns s1) = None /\
  (exists e, fst r = Throw e) /\
  columns (snd r) = columns s1 /\ statuses (snd r) = statuses s1 /\
  transitions (snd r) = transitions s1 /\ console (snd r) = console s1.
Proof.
  intros Hok. simpl.
  assert (find_doc customColumnId
            (columns (snd (app_delete oracle customColumnId s))) = None) as Habs.
  { revert Hok. rewrite app_delete_unfold.
    destruct (remove_column_outcomes oracle customColumnId s)
      as (_ & _ & _ & _ & _ & [(e & Er & _)|(pre & Er & Kc & _)]);
      destruct (remove_column oracle customColumnId s) as [[pre'|e'] s1];
      simpl in *; try discriminate.
    intros _.
    rewrite (cleanup_status_keeps_columns oracle (fst pre') (snd pre') s1), Kc.
    apply find_doc_removed. }
  split; [exact Habs|].
  destruct (app_delete_absent oracle' customColumnId _ Habs)
    as ((e & He & _) & _ & Kc & _ & Ks & Kt & Kcon).
  split; [now exists e|]. auto.
Qed.

Lemma second_delete_throws_witness :
  let s1 := snd (app_delete Board.projects_down "c_done" Board.store) in
  let r := app_delete no_fault "c_done" s1 in
  find_doc "c_done" (columns s1) = None /\
  (exists e, fst r = Throw e) /\
  columns (snd r) = columns s1 /\ statuses (snd r) = statuses s1 /\
  transitions (snd r) = transitions s1 /\ console (snd r) = console s1.
Proof.
  apply (second_delete_throws Board.projects_down no_fault "c_done" Board.store).
  reflexivity.
Defined.

(** ** Partial update: PATCH /:customColumnId *)

Lemma update_column_run oracle id updates s :
  updateDocument oracle Columns id updates s =
  match oracle (List.length (log s)) (OpUpdate CUSTOM_COLUMNS_ID id) with
  | Some e => (Throw e, record_op (OpUpdate CUSTOM_COLUMNS_ID id) s)
  | None =>
      match find_doc id (columns s) with
      | Some d => (Ok (updates d),
                   set_columns (replace_doc id updates (columns s))
                     (record_op (OpUpdate CUSTOM_COLUMNS_ID id) s))
      | None => (Throw NotFound, record_op (OpUpdate CUSTOM_COLUMNS_ID id) s)
      end
  end.
Proof.
  unfold updateDocument, bind, call. simpl.
  destruct (oracle _ _); reflexivity.
Qed.

Lemma app_patch_run oracle id updates s :
  app_patch oracle id updates s =
  match oracle (List.length (log s)) (OpUpdate CUSTOM_COLUMNS_ID id) with
  | Some e => (Throw e, record_op (OpUpdate CUSTOM_COLUMNS_ID id) s)
  | None =>
      match find_doc id (columns s) with
      | Some d => (Ok (apply_updates updates d),
                   set_columns (replace_doc id (apply_updates updates) (columns s))
                     (record_op (OpUpdate CUSTOM_COLUMNS_ID id) s))
      | None => (Throw NotFound, record_op (OpUpdate CUSTOM_COLUMNS_ID id) s)
      end
  end.
Proof.
  unfold app_patch, bind. rewrite update_column_run.
  destruct (oracle _ _); [reflexivity|]. now destruct (find_doc _ _).
Qed.

Lemma find_doc_replaced id (f : CustomColumn -> CustomColumn) (l : list CustomColumn) d :
  (forall c, cc_id (f c) = cc_id c) ->
  find_doc id l = Some d -> find_doc id (replace_doc id f l) = Some (f d).
Proof.
  intros Hid. unfold find_doc, replace_doc.
  induction l as [|x r IH]; simpl; [discriminate|].
  destruct (has_id id x) eqn:E.
  - intros H. inversion H; subst. unfold has_id in *. simpl in *.
    now rewrite Hid, E.
  - rewrite E. exact IH.
Qed.

Lemma replace_doc_ids id (f : CustomColumn -> CustomColumn) (l : list CustomColumn) :
  (forall c, cc_id (f c) = cc_id c) ->
  map cc_id (replace_doc id f l) = map cc_id l.
Proof.
  intros Hid. unfold replace_doc. rewrite map_map. apply map_ext.
  intros c. destruct (has_id id c); [apply Hid|reflexivity].
Qed.

Lemma replace_doc_others id (f : CustomColumn -> CustomColumn) (l : list CustomColumn) c :
  In c l -> cc_id c <> id -> In c (replace_doc id f l).
Proof.
  intros Hin N. unfold replace_doc. apply in_map_iff. exists c. split; [|exact Hin].
  unfold has_id. simpl. destruct (String.eqb_spec (cc_id c) id); [contradiction|reflexivity].
Qed.

Lemma replace_doc_twice id (f : CustomColumn -> CustomColumn) (l : list CustomColumn) :
  (forall c, cc_id (f c) = cc_id c) -> (forall c, f (f c) = f c) ->
  replace_doc id f (replace_doc id f l) = replace_doc id f l.
Proof.
  intros Hid Hf. unfold replace_doc. rewrite map_map. apply map_ext.
  intros c. destruct (has_id id c) eqn:E; [|now rewrite E].
  unfold has_id in *. simpl in *. now rewrite Hid, E, Hf.
Qed.

Lemma apply_updates_twice u c : apply_updates u (apply_updates u c) = apply_updates u c.
Proof.
  unfold apply_updates. simpl.
  destruct (upd_name u), (upd_icon u), (upd_color u), (upd_position u); reflexivity.
Qed.

(** X25. A partial update of a column that is not in the store throws,
    whatever the store does, and not-found when the store itself answers;
    no column is changed. *)
Theorem patch_of_absent_column
  (oracle : nat -> Op -> option Exception) (customColumnId : string)
  (updates : UpdateCustomColumn) (s : Store) :
  find_doc customColumnId (columns s) = None ->
  let r := app_patch oracle customColumnId updates s in
  (exists e, fst r = Throw e /\
     (oracle (List.length (log s)) (OpUpdate CUSTOM_COLUMNS_ID customColumnId) = None ->
      e = NotFound)) /\
  columns (snd r) = columns s.
Proof.
  intros Habs. simpl. rewrite app_patch_run, Habs.
  destruct (oracle _ _); simpl; (split; [eexists; split; [reflexivity|]|reflexivity]);
    congruence.
Qed.

Lemma patch_of_absent_column_witness :
  let r := app_patch no_fault "c_nowhere"
             {| upd_name := Some "Later"; upd_icon := None; upd_color := None;
                upd_position := None |} Board.store in
  (exists e, fst r = Throw e /\
     (no_fault (List.length (log Board.store))
        (OpUpdate CUSTOM_COLUMNS_ID "c_nowhere") = None -> e = NotFound)) /\
  columns (snd r) = columns Board.store.
Proof.
  apply (patch_of_absent_column no_fault "c_nowhere"
           {| upd_name := Some "Later"; upd_icon := None; upd_color := None;
              upd_position := None |} Board.store).
  reflexivity.
Defined.

(** X26. A partial update that goes through answers with the updated
    document and stores it in place: reading the id afterwards finds the
    document of the response, the ids of the collection and their order are
    unchanged, and every column with another id is still there. *)
Theorem patch_updates_in_place
  (oracle : nat -> Op -> option Exception) (customColumnId : string)
  (updates : UpdateCustomColumn) (s : Store) (column : CustomColumn) :
  oracle (List.length (log s)) (OpUpdate CUSTOM_COLUMNS_ID customColumnId) = None ->
  find_doc customColumnId (columns s) = Some column ->
  let r := app_patch oracle customColumnId updates s in
  fst r = Ok (apply_updates updates column) /\
  find_doc customColumnId (columns (snd r)) = Some (apply_updates updates column) /\
  map cc_id (columns (snd r)) = map cc_id (columns s) /\
  (forall c, In c (columns s) -> cc_id c <> customColumnId -> In c (columns (snd r))).
Proof.
  intros Hgo Hcol. simpl. rewrite app_patch_run, Hgo, Hcol. simpl.
  split; [reflexivity|]. split; [|split].
  - now apply find_doc_replaced.
  - now apply replace_doc_ids.
  - intros c. apply replace_doc_others.
Qed.

Lemma patch_updates_in_place_witness :
  let u := {| upd_name := Some "Finished"; upd_icon := None; upd_color := None;
              upd_position := Some 1500 |} in
  let r := app_patch no_fault "c_done" u Board.store in
  fst r = Ok (apply_updates u Board.done_column) /\
  find_doc "c_done" (columns (snd r)) = Some (apply_updates u Board.done_column) /\
  map cc_id (columns (snd r)) = map cc_id (columns Board.store) /\
  (forall c, In c (columns Board.store) -> cc_id c <> "c_done" ->
     In c (columns (snd r))).
Proof.
  apply (patch_updates_in_place no_fault "c_done"
           {| upd_name := Some "Finished"; upd_icon := None; upd_color := None;
              upd_position := Some 1500 |} Board.store Board.done_column).
  - reflexivity.
  - reflexivity.
Defined.

(** X27. A partial update applied twice is the update applied once: with
    column calls that go through, the second request gives the same answer
    as the first and leaves the column collection as the first left it. *)
Theorem patch_twice_is_patch_once
  (oracle oracle' : nat -> Op -> option Exception) (customColumnId : string)
  (updates : UpdateCustomColumn) (s : Store) (column : CustomColumn) :
  reliable_on oracle CUSTOM_COLUMNS_ID ->
  reliable_on oracle' CUSTOM_COLUMNS_ID ->
  find_doc customColumnId (columns s) = Some column ->
  let first := app_patch oracle customColumnId updates s in
  let second := app_patch oracle' customColumnId updates (snd first) in
  fst second = fst first /\ columns (snd second) = columns (snd first).
Proof.
  intros Hrel Hrel' Hcol. simpl.
  rewrite (app_patch_run oracle), Hrel, Hcol by reflexivity. simpl snd. simpl fst.
  rewrite (app_patch_run oracle'), Hrel' by reflexivity. simpl columns.
  rewrite (find_doc_replaced customColumnId (apply_updates updates) _ _
             (fun c => eq_refl) Hcol). simpl.
  rewrite apply_updates_twice. split; [reflexivity|].
  apply replace_doc_twice; [reflexivity|apply apply_updates_twice].
Qed.

Lemma patch_twice_is_patch_once_witness :
  let u := {| upd_name := Some "Finished"; upd_icon := Some "Flag"; upd_color := None;
              upd_position := None |} in
  let first := app_patch no_fault "c_done" u Board.store in
  let second := app_patch Board.projects_down "c_done" u (snd first) in
  fst second = fst first /\ columns (snd second) = columns (snd first).
Proof.
  apply (patch_twice_is_patch_once no_fault Board.projects_down "c_done"
           {| upd_name := Some "Finished"; upd_icon := Some "Flag"; upd_color := None;
              upd_position := None |} Board.store Board.done_column).
  - intros n op E. reflexivity.
  - intros n [c q|c i|c i|c i|c i] E; simpl in E; subst; reflexivity.
  - reflexivity.
Defined.


